(** * mcp-language-server: capability queries, coordinate seam and symbol resolver

    A shallow embedding of the Go sources
    - package [lsp]: the capability queries [Has*Support];
    - package [tools]: [ReadDefinition], [extractDefinitionLocations] and
      [symbolMatches] ([internal/tools/definition.go]); [GetCallHierarchy];
      [GetCodeActions] and [formatCodeActionKind]
      ([internal/tools/code-actions.go]); the requests of [GetSignatureHelp]
      and [GetCompletions]; [formatDocumentSymbol] and
      [formatSymbolInformation];
    followed by the properties the specification states about them.

    Conventions.  A Go [string] is a byte sequence and is a Rocq [string]
    (one [ascii] per byte).  Go's [int] is 64 bits wide and [uint32] 32 bits;
    both are [Z] with the wrap-around written out.  A nil-able pointer or
    interface is an [option].  A Go [error] is its message.  Calls on the
    [*lsp.Client] talk to the language server: they thread an explicit client
    state.  Logging calls ([toolsLogger]) have no effect on results and are
    left out. *)

From Stdlib Require Import ZArith Lia Bool List Ascii String.
From Stdlib Require Import DecimalString DecimalPos DecimalZ.
From stdpp Require Import gmap strings.

Import ListNotations.
Local Open Scope string_scope.
Local Open Scope Z_scope.

(* ===================================================================== *)
(** * Definitions *)
(* ===================================================================== *)

(** ** Machine integers *)

(** [uint32(x)]: conversion to an unsigned 32-bit integer keeps the low 32 bits. *)
Definition uint32 (x : Z) : Z := x mod 2 ^ 32.

(** Go's [int] on the supported platforms: 64-bit two's complement. *)
Definition int (x : Z) : Z := (x + 2 ^ 63) mod 2 ^ 64 - 2 ^ 63.

(** [a - b] on [int]. *)
Definition int_sub (a b : Z) : Z := int (a - b).

(** [a + b] on [int]. *)
Definition int_add (a b : Z) : Z := int (a + b).

(** [a + b] on [uint32]. *)
Definition uint32_add (a b : Z) : Z := uint32 (a + b).

(** ** The parts of Go's standard library the sources call *)

Module fmt.

(** The verb [%d] applied to an integer: its decimal numeral, with a leading
    [-] when negative. *)
Definition d (z : Z) : string := NilZero.string_of_int (Z.to_int z).

(** The line feed that the sources write as a backslash followed by [n]. *)
Definition nl : string := String "010"%char EmptyString.

(** An operand of [Sprintf], with its Go type. *)
Inductive arg : Type :=
  | arg_string (s : string)
  | arg_int (z : Z)
  | arg_uint32 (z : Z).

End fmt.

Module GoStrings.

Definition byte (c : ascii) : Z := Z.of_N (N_of_ascii c).

(** [len(s)] *)
Definition len (s : string) : Z := Z.of_nat (String.length s).

(** [s[n:]] for [0 <= n <= len(s)] *)
Fixpoint drop (n : nat) (s : string) : string :=
  match n, s with
  | O, _ => s
  | S n', String _ s' => drop n' s'
  | S _, EmptyString => EmptyString
  end.

(** [s[:n]] for [0 <= n <= len(s)] *)
Fixpoint take (n : nat) (s : string) : string :=
  match n, s with
  | O, _ => EmptyString
  | S n', String c s' => String c (take n' s')
  | S _, EmptyString => EmptyString
  end.

(** [strings.HasPrefix(s, prefix)]:
    [len(s) >= len(prefix) && s[:len(prefix)] == prefix]. *)
Fixpoint HasPrefix (s prefix : string) {struct prefix} : bool :=
  match prefix, s with
  | EmptyString, _ => true
  | String p prefix', String c s' => Ascii.eqb c p && HasPrefix s' prefix'
  | String _ _, EmptyString => false
  end.

(** [strings.HasSuffix(s, suffix)]:
    [len(s) >= len(suffix) && s[len(s)-len(suffix):] == suffix]. *)
Definition HasSuffix (s suffix : string) : bool :=
  (String.length suffix <=? String.length s)%nat &&
  String.eqb (drop (String.length s - String.length suffix) s) suffix.

(** [strings.TrimPrefix(s, prefix)] *)
Definition TrimPrefix (s prefix : string) : string :=
  if HasPrefix s prefix then drop (String.length prefix) s else s.

(** [strings.Index(s, substr)]: the index of the first instance of [substr]
    in [s], or [-1]. *)
Fixpoint Index_from (i : Z) (s substr : string) : Z :=
  if HasPrefix s substr then i
  else match s with
       | EmptyString => -1
       | String _ s' => Index_from (i + 1) s' substr
       end.

Definition Index (s substr : string) : Z := Index_from 0 s substr.

(** [strings.Contains(s, substr)]: [Index(s, substr) >= 0]. *)
Definition Contains (s substr : string) : bool := 0 <=? Index s substr.

(** [strings.ContainsAny(s, chars)] for [chars] made of ASCII characters (the
    sources pass the literal [".:"]): some byte of [s] is one of [chars].  A
    byte below 0x80 never occurs inside a multi-byte UTF-8 sequence, so the
    rune-wise search of the library is this byte-wise one. *)
Fixpoint mem_byte (c : ascii) (chars : string) : bool :=
  match chars with
  | EmptyString => false
  | String x chars' => Ascii.eqb c x || mem_byte c chars'
  end.

Fixpoint ContainsAny (s chars : string) : bool :=
  match s with
  | EmptyString => false
  | String c s' => mem_byte c chars || ContainsAny s' chars
  end.

(** [strings.Join(elems, sep)] *)
Fixpoint Join (elems : list string) (sep : string) : string :=
  match elems with
  | [] => EmptyString
  | [e] => e
  | e :: rest => e +:+ sep +:+ Join rest sep
  end.

(** [strings.Split(s, sep)] for a non-empty [sep] (the sources pass ["::"]):
    cut at every instance of [sep], found from left to right without
    overlap.  [fuel] bounds the number of cuts; [len(s) + 1] is enough. *)
Fixpoint Split_fuel (fuel : nat) (s sep : string) : list string :=
  match fuel with
  | O => [s]
  | S fuel' =>
      let m := Index s sep in
      if m <? 0 then [s]
      else take (Z.to_nat m) s
           :: Split_fuel fuel' (drop (Z.to_nat m + String.length sep) s) sep
  end.

Definition Split (s sep : string) : list string :=
  Split_fuel (S (String.length s)) s sep.

Section EqualFold.

(** [strings.EqualFold] compares byte by byte while both strings are ASCII
    and, at the first byte that is not, continues on the remaining suffixes
    rune by rune with Unicode simple case folding ([unicode.SimpleFold]).
    That second loop is the library's, driven by the Unicode tables; it is
    the parameter [hasUnicode]. *)
Variable hasUnicode : string -> string -> bool.

Fixpoint EqualFold (s t : string) : bool :=
  match s, t with
  | String sc s', String tc t' =>
      let sr := byte sc in
      let tr := byte tc in
      if 128 <=? Z.lor sr tr then hasUnicode s t
      else if tr =? sr then EqualFold s' t'
      else
        let lo := if tr <? sr then tr else sr in
        let hi := if tr <? sr then sr else tr in
        if (65 <=? lo) && (lo <=? 90) && (hi =? lo + 97 - 65)
        then EqualFold s' t'
        else false
  | EmptyString, EmptyString => true
  | _, _ => false
  end.

End EqualFold.

End GoStrings.

(** ** Protocol types ([internal/protocol])

    The declarations of the protocol package are generated from the LSP
    meta-model.  Only the fields the modelled functions read are kept. *)

Module protocol.

(** A non-nil value held in an [interface{}] ([any]), as [encoding/json]
    decodes it or as a literal builds it.  [any_other] stands for a value of
    any further dynamic type, named by that type. *)
#[local] Unset Elimination Schemes.
Inductive any : Type :=
  | any_bool (b : bool)
  | any_string (s : string)
  | any_slice (l : list any)
  | any_map (m : list (string * any))
  | any_other (type_name : string).
#[local] Set Elimination Schemes.

(** [uint32] line and character offsets, 0-indexed on the wire. *)
Record Position := { Line : Z; Character : Z }.

Record Range := { Start : Position; End_ : Position }.

Definition DocumentUri := string.

Record Location := { Location_URI : DocumentUri; Location_Range : Range }.

Record DefinitionLink := { TargetURI : DocumentUri; TargetRange : Range }.

Record TextDocumentIdentifier := { TextDocumentIdentifier_URI : DocumentUri }.

Record TextDocumentPositionParams :=
  { TextDocument : TextDocumentIdentifier; Position_ : Position }.

(** [type SymbolKind uint32] and the constants the resolver names
    ([Variable] is reserved in Rocq, hence [Variable_]). *)
Definition SymbolKind := Z.
Definition Class : SymbolKind := 5.
Definition Method : SymbolKind := 6.
Definition Enum : SymbolKind := 10.
Definition Interface : SymbolKind := 11.
Definition Function : SymbolKind := 12.
Definition Variable_ : SymbolKind := 13.
Definition Constant : SymbolKind := 14.
Definition Struct : SymbolKind := 23.

(** [SymbolInformation], one of the two shapes of a workspace symbol. *)
Record SymbolInformation := {
  SymbolInformation_Name : string;
  SymbolInformation_Kind : SymbolKind;
  SymbolInformation_ContainerName : string;
  SymbolInformation_Location : Location
}.

(** The interface [WorkspaceSymbolResult]: what its methods [GetName()] and
    [GetLocation()] return, and the outcome of the type switch
    [symbol.(type)] on [*SymbolInformation]. *)
Record WorkspaceSymbolResult := {
  GetName : string;
  GetLocation : Location;
  as_SymbolInformation : option SymbolInformation
}.

(** Go's [(value, error)] pair of results, read by callers as: use the value
    only when the error is nil. *)
Inductive result (A : Type) : Type :=
  | Ok (a : A)
  | Err (err : string).
Arguments Ok {A} a.
Arguments Err {A} err.

(** The answer of [workspace/symbol].  [Results()] decodes an immutable
    value, so the value is given by what [Results()] returns on it. *)
Record Or_Result_workspace_symbol :=
  { Results : result (list WorkspaceSymbolResult) }.

Record WorkspaceSymbolParams := { Query : string }.

Record DefinitionParams :=
  { DefinitionParams_TextDocumentPositionParams : TextDocumentPositionParams }.

(** [type Definition = Or_Definition], whose [Value] is a [Location], a
    [[]Location] or something else (nil included). *)
Inductive Or_Definition_Value : Type :=
  | Value_Location (def : Location)
  | Value_Locations (def : list Location)
  | Value_unexpected (type_name : string).

Record Definition_ := { Definition_Value : Or_Definition_Value }.

(** The dynamic value inside [Or_Result_textDocument_definition]. *)
Inductive definition_Value : Type :=
  | Value_Definition (v : Definition_)
  | Value_DefinitionLinks (v : list DefinitionLink)
  | Value_other (type_name : string).

Record Or_Result_textDocument_definition :=
  { definition_result_Value : option definition_Value }.

Record CallHierarchyPrepareParams :=
  { CallHierarchyPrepareParams_TextDocumentPositionParams : TextDocumentPositionParams }.

Record CallHierarchyItem := {
  CallHierarchyItem_Name : string;
  CallHierarchyItem_Detail : string;
  CallHierarchyItem_URI : DocumentUri;
  CallHierarchyItem_Range : Range
}.

Record CallHierarchyIncomingCallsParams :=
  { CallHierarchyIncomingCallsParams_Item : CallHierarchyItem }.

Record CallHierarchyOutgoingCallsParams :=
  { CallHierarchyOutgoingCallsParams_Item : CallHierarchyItem }.

Record CallHierarchyIncomingCall := {
  From : CallHierarchyItem;
  IncomingCall_FromRanges : list Range
}.

Record CallHierarchyOutgoingCall := {
  To : CallHierarchyItem;
  OutgoingCall_FromRanges : list Range
}.

Record SignatureHelpParams := {
  SignatureHelpParams_TextDocument : TextDocumentIdentifier;
  SignatureHelpParams_Position : Position
}.

Record CompletionParams := {
  CompletionParams_TextDocument : TextDocumentIdentifier;
  CompletionParams_Position : Position
}.

Section CodeAction.

(** [Diagnostic] values are passed through untouched. *)
Context {Diagnostic : Type}.

Record CodeActionContext := { Diagnostics : list Diagnostic }.

Record CodeActionParams := {
  CodeActionParams_TextDocument : TextDocumentIdentifier;
  CodeActionParams_Range : Range;
  Context_ : CodeActionContext
}.

End CodeAction.

Arguments CodeActionContext : clear implicits.
Arguments CodeActionParams : clear implicits.

(** One element of the answer of [textDocument/codeAction]: a struct around
    a [Value interface{}]. *)
Record Or_Result_textDocument_codeAction_Item0_Elem :=
  { codeAction_Value : option any }.

(** [DocumentSymbol] is a tree: every symbol carries its children. *)
#[local] Unset Elimination Schemes.
Inductive DocumentSymbol : Type :=
  mkDocumentSymbol (Name : string) (Detail : string) (Kind : SymbolKind)
                   (Range_ : Range) (Children : list DocumentSymbol).
#[local] Set Elimination Schemes.

(** The [Or_ServerCapabilities_*] wrappers: a struct around one
    [Value interface{}]. *)
Record Or_ServerCapabilities_definitionProvider :=
  { definitionProvider_Value : option any }.
Record Or_ServerCapabilities_referencesProvider :=
  { referencesProvider_Value : option any }.
Record Or_ServerCapabilities_hoverProvider :=
  { hoverProvider_Value : option any }.
Record Or_ServerCapabilities_documentSymbolProvider :=
  { documentSymbolProvider_Value : option any }.
Record Or_ServerCapabilities_callHierarchyProvider :=
  { callHierarchyProvider_Value : option any }.
Record Or_ServerCapabilities_workspaceSymbolProvider :=
  { workspaceSymbolProvider_Value : option any }.

Section ServerCapabilities.

(** The option structs behind the two pointer-typed providers; their fields
    are never read. *)
Context {SignatureHelpOptions CodeLensOptions : Type}.

Record ServerCapabilities := {
  DefinitionProvider : option Or_ServerCapabilities_definitionProvider;
  ReferencesProvider : option Or_ServerCapabilities_referencesProvider;
  HoverProvider : option Or_ServerCapabilities_hoverProvider;
  DocumentSymbolProvider : option Or_ServerCapabilities_documentSymbolProvider;
  CallHierarchyProvider : option Or_ServerCapabilities_callHierarchyProvider;
  WorkspaceSymbolProvider : option Or_ServerCapabilities_workspaceSymbolProvider;
  RenameProvider : option any;
  CodeActionProvider : option any;
  SignatureHelpProvider : option SignatureHelpOptions;
  CodeLensProvider : option CodeLensOptions
}.

End ServerCapabilities.

Arguments ServerCapabilities : clear implicits.

End protocol.

(** ** Capability queries (package [lsp])

    Reading a field through a pointer dereferences it, and dereferencing nil
    panics.  A query therefore yields [Some b] when it returns [b] and [None]
    when it panics; [p != nil] is [notnil p] and a field read [p.F] is
    [x ← p; ... F x ...]. *)

Module lsp.

Import protocol.

Definition notnil {A : Type} (p : option A) : bool :=
  match p with Some _ => true | None => false end.

(** Go's short-circuit [a && b]: [b] is evaluated only when [a] is true. *)
Definition and_then (a b : option bool) : option bool :=
  match a with
  | Some true => b
  | Some false => Some false
  | None => None
  end.

Infix "&&&" := and_then (at level 40, left associativity).

Section Capabilities.

Context {SignatureHelpOptions CodeLensOptions : Type}.

Abbreviation caps_ptr := (option (ServerCapabilities SignatureHelpOptions CodeLensOptions)).

Definition HasDefinitionSupport (caps : caps_ptr) : option bool :=
  if negb (notnil caps) then Some false
  else
    (c ← caps; Some (notnil (DefinitionProvider c))) &&&
    (c ← caps; p ← DefinitionProvider c; Some (notnil (definitionProvider_Value p))) &&&
    (c ← caps; Some (notnil (WorkspaceSymbolProvider c))) &&&
    (c ← caps; p ← WorkspaceSymbolProvider c; Some (notnil (workspaceSymbolProvider_Value p))).

Definition HasReferencesSupport (caps : caps_ptr) : option bool :=
  if negb (notnil caps) then Some false
  else
    (c ← caps; Some (notnil (ReferencesProvider c))) &&&
    (c ← caps; p ← ReferencesProvider c; Some (notnil (referencesProvider_Value p))).

Definition HasHoverSupport (caps : caps_ptr) : option bool :=
  if negb (notnil caps) then Some false
  else
    (c ← caps; Some (notnil (HoverProvider c))) &&&
    (c ← caps; p ← HoverProvider c; Some (notnil (hoverProvider_Value p))).

Definition HasDocumentSymbolSupport (caps : caps_ptr) : option bool :=
  if negb (notnil caps) then Some false
  else
    (c ← caps; Some (notnil (DocumentSymbolProvider c))) &&&
    (c ← caps; p ← DocumentSymbolProvider c; Some (notnil (documentSymbolProvider_Value p))).

Definition HasCallHierarchySupport (caps : caps_ptr) : option bool :=
  if negb (notnil caps) then Some false
  else
    (c ← caps; Some (notnil (CallHierarchyProvider c))) &&&
    (c ← caps; p ← CallHierarchyProvider c; Some (notnil (callHierarchyProvider_Value p))).

Definition HasWorkspaceSymbolSupport (caps : caps_ptr) : option bool :=
  if negb (notnil caps) then Some false
  else
    (c ← caps; Some (notnil (WorkspaceSymbolProvider c))) &&&
    (c ← caps; p ← WorkspaceSymbolProvider c; Some (notnil (workspaceSymbolProvider_Value p))).

Definition HasRenameSupport (caps : caps_ptr) : option bool :=
  if negb (notnil caps) then Some false
  else c ← caps; Some (notnil (RenameProvider c)).

Definition HasCodeActionSupport (caps : caps_ptr) : option bool :=
  if negb (notnil caps) then Some false
  else c ← caps; Some (notnil (CodeActionProvider c)).

Definition HasSignatureHelpSupport (caps : caps_ptr) : option bool :=
  if negb (notnil caps) then Some false
  else c ← caps; Some (notnil (SignatureHelpProvider c)).

Definition HasCodeLensSupport (caps : caps_ptr) : option bool :=
  if negb (notnil caps) then Some false
  else c ← caps; Some (notnil (CodeLensProvider c)).

Definition AlwaysSupported : bool := true.

End Capabilities.

(** ** The client ([internal/lsp], methods of [*Client])

    The methods are requests to the language server (and, for [OpenFile],
    file reads and a notification).  Their code is outside the modelled
    sources: a client is given by its methods, each a transition on the
    client state [St] that the calls thread. *)

Record Client (St : Type) := {
  Symbol : WorkspaceSymbolParams -> St -> result Or_Result_workspace_symbol * St;
  OpenFile : string -> St -> option string * St;
  Client_Definition : DefinitionParams -> St -> result Or_Result_textDocument_definition * St;
  PrepareCallHierarchy :
    CallHierarchyPrepareParams -> St -> result (list CallHierarchyItem) * St;
  IncomingCalls :
    CallHierarchyIncomingCallsParams -> St -> result (list CallHierarchyIncomingCall) * St;
  OutgoingCalls :
    CallHierarchyOutgoingCallsParams -> St -> result (list CallHierarchyOutgoingCall) * St;
  Diagnostic : Type;
  GetFileDiagnostics : DocumentUri -> St -> list Diagnostic * St;
  CodeAction :
    CodeActionParams Diagnostic -> St ->
    result (list Or_Result_textDocument_codeAction_Item0_Elem) * St
}.

Arguments Symbol {St} _ _ _.
Arguments OpenFile {St} _ _ _.
Arguments Client_Definition {St} _ _ _.
Arguments PrepareCallHierarchy {St} _ _ _.
Arguments IncomingCalls {St} _ _ _.
Arguments OutgoingCalls {St} _ _ _.
Arguments Diagnostic {St} _.
Arguments GetFileDiagnostics {St} _ _ _.
Arguments CodeAction {St} _ _ _.

End lsp.

(** ** The tools ([internal/tools]) *)

Module tools.

Import protocol.
Import GoStrings.

(** *** [symbolMatches] ([internal/tools/definition.go]) *)

Section SymbolMatches.

(** The Unicode loop of [strings.EqualFold], see [GoStrings.EqualFold]. *)
Variable hasUnicode : string -> string -> bool.

Definition symbolMatches (query symbolName : string) (symbolKind : SymbolKind)
    (containerName : string) : bool :=
  (* Exact match is always accepted *)
  if String.eqb symbolName query then true
  (* Query has explicit qualification - require exact match *)
  else if ContainsAny query ".:" then String.eqb symbolName query
  (* 1. symbol name ends with the query *)
  else if HasSuffix symbolName ("::" +:+ query) || HasSuffix symbolName ("." +:+ query)
  then true
  (* 2. methods and functions with a container *)
  else if ((symbolKind =? Method) || (symbolKind =? Function)) &&
          (String.eqb symbolName query && negb (String.eqb containerName ""))
  then true
  (* 3. classes, structs, interfaces, enums: case-insensitive match *)
  else if ((symbolKind =? Class) || (symbolKind =? Struct) ||
           (symbolKind =? Interface) || (symbolKind =? Enum)) &&
          EqualFold hasUnicode symbolName query
  then true
  (*    ... or substring match *)
  else if ((symbolKind =? Class) || (symbolKind =? Struct) ||
           (symbolKind =? Interface) || (symbolKind =? Enum)) &&
          Contains symbolName query
  then true
  (* 4. variables and constants: namespace::NAME *)
  else if ((symbolKind =? Variable_) || (symbolKind =? Constant)) &&
          (let parts := Split symbolName "::" in
           (1 <? Z.of_nat (List.length parts)) && String.eqb (List.last parts "") query)
  then true
  else false.

End SymbolMatches.

(** *** [extractDefinitionLocations] *)

Definition extractDefinitionLocations (defResult : Or_Result_textDocument_definition)
  : result (list Location) :=
  match definition_result_Value defResult with
  | None => Err "no definition found"
  | Some (Value_Definition v) =>
      match Definition_Value v with
      | Value_Location def => Ok ([] ++ [def])%list
      | Value_Locations def => Ok ([] ++ def)%list
      | Value_unexpected T => Err ("unexpected Definition type: " +:+ T)
      end
  | Some (Value_DefinitionLinks v) =>
      Ok (fold_left
            (fun locations link =>
               (locations ++ [ {| Location_URI := TargetURI link;
                                  Location_Range := TargetRange link |} ])%list)
            v [])
  | Some (Value_other T) => Err ("unexpected definition result type: " +:+ T)
  end.

(** *** What the tools call and the modelled sources do not contain *)

(** - [EqualFold_hasUnicode]: the Unicode loop of [strings.EqualFold];
    - [Sprintf]: [fmt.Sprintf], used where the format string is built at run
      time (a constant format applied to operands of the right types is
      written out with [+:+] and [fmt.d]);
    - [TableKindMap]: [protocol.TableKindMap], as the lookup function of the
      map (the empty string for a missing key);
    - [Path]: the method [DocumentUri.Path()];
    - [GetFullDefinition] and [addLineNumbers]: helpers of package [tools]. *)
Record Env (St : Type) := {
  EqualFold_hasUnicode : string -> string -> bool;
  Sprintf : string -> list fmt.arg -> string;
  TableKindMap : SymbolKind -> string;
  Path : DocumentUri -> string;
  GetFullDefinition :
    lsp.Client St -> Location -> St -> (string * Location * option string) * St;
  addLineNumbers : string -> Z -> string
}.

Arguments EqualFold_hasUnicode {St} _ _ _.
Arguments Sprintf {St} _ _ _.
Arguments TableKindMap {St} _ _.
Arguments Path {St} _ _.
Arguments GetFullDefinition {St} _ _ _ _.
Arguments addLineNumbers {St} _ _ _.

(** *** [ReadDefinition] *)

Section ReadDefinition.

Context {St : Type}.
Variable env : Env St.
Variable client : lsp.Client St.

(** The variables the two loops of [ReadDefinition] update, and the client
    state.  Every string appended to [definitions] is kept together with the
    definition location [defLoc] whose iteration appended it, and [visited]
    lists the [defLoc] of every iteration of the inner loop; these two
    annotations are not read by the code. *)
Record loop_vars := {
  definitions : list (Location * string);
  seenLocations : gmap string bool;
  visited : list Location;
  client_state : St
}.

Definition with_state (vars : loop_vars) (st : St) : loop_vars :=
  {| definitions := definitions vars; seenLocations := seenLocations vars;
     visited := visited vars; client_state := st |}.

(** [fmt.Sprintf("%s:%d:%d", defLoc.URI, defLoc.Range.Start.Line,
    defLoc.Range.Start.Character)] *)
Definition locationKey (defLoc : Location) : string :=
  Location_URI defLoc +:+ ":" +:+
  fmt.d (Line (Start (Location_Range defLoc))) +:+ ":" +:+
  fmt.d (Character (Start (Location_Range defLoc))).

(** [seenLocations[locationKey]]: a missing key reads as [false]. *)
Definition seen (m : gmap string bool) (key : string) : bool :=
  default false (m !! key).

(** The operands of the [Sprintf] call that builds [locationInfo]. *)
Definition locationInfo_operands (symbol : WorkspaceSymbolResult) (finalLoc : Location)
  : list fmt.arg :=
  [ fmt.arg_string (GetName symbol);
    fmt.arg_string (TrimPrefix (Location_URI finalLoc) "file://");
    fmt.arg_uint32 (uint32_add (Line (Start (Location_Range finalLoc))) 1);
    fmt.arg_uint32 (uint32_add (Character (Start (Location_Range finalLoc))) 1);
    fmt.arg_uint32 (uint32_add (Line (End_ (Location_Range finalLoc))) 1);
    fmt.arg_uint32 (uint32_add (Character (End_ (Location_Range finalLoc))) 1) ].

(** The first line number handed to [addLineNumbers]:
    [int(finalLoc.Range.Start.Line)+1]. *)
Definition first_line_number (finalLoc : Location) : Z :=
  int_add (Line (Start (Location_Range finalLoc))) 1.

(** One iteration of [for _, defLoc := range defLocations]. *)
Definition definition_step (symbol : WorkspaceSymbolResult) (kind container : string)
    (vars : loop_vars) (defLoc : Location) : loop_vars :=
  let vars :=
    {| definitions := definitions vars; seenLocations := seenLocations vars;
       visited := (visited vars ++ [defLoc])%list;
       client_state := client_state vars |} in
  if seen (seenLocations vars) (locationKey defLoc) then vars
  else
    let vars :=
      {| definitions := definitions vars;
         seenLocations := <[locationKey defLoc := true]> (seenLocations vars);
         visited := visited vars; client_state := client_state vars |} in
    match lsp.OpenFile client (Path env (Location_URI defLoc)) (client_state vars) with
    | (Some err, st) => with_state vars st
    | (None, st) =>
        let banner := "---" +:+ fmt.nl +:+ fmt.nl in
        let '(definition, finalLoc, err, st) := GetFullDefinition env client defLoc st in
        let locationInfo :=
          Sprintf env
            ("Symbol: %s" +:+ fmt.nl +:+
             "File: %s" +:+ fmt.nl +:+
             kind +:+
             container +:+
             "Range: L%d:C%d - L%d:C%d" +:+ fmt.nl +:+ fmt.nl)
            (locationInfo_operands symbol finalLoc) in
        match err with
        | Some _ => with_state vars st
        | None =>
            let definition :=
              addLineNumbers env definition (first_line_number finalLoc) in
            {| definitions :=
                 (definitions vars ++
                  [(defLoc, banner +:+ locationInfo +:+ definition +:+ fmt.nl)])%list;
               seenLocations := seenLocations vars;
               visited := visited vars;
               client_state := st |}
        end
    end.

(** The [switch v := symbol.(type)] at the head of the outer loop: the
    texts [kind] and [container], and whether the symbol matches the query
    (when it does not, the iteration ends at [continue]). *)
Definition symbol_switch (symbolName : string) (symbol : WorkspaceSymbolResult)
  : string * string * bool :=
  match as_SymbolInformation symbol with
  | Some v =>
      ("Kind: " +:+ TableKindMap env (SymbolInformation_Kind v) +:+ fmt.nl,
       if negb (String.eqb (SymbolInformation_ContainerName v) "")
       then "Container Name: " +:+ SymbolInformation_ContainerName v +:+ fmt.nl
       else "",
       symbolMatches (EqualFold_hasUnicode env) symbolName (GetName symbol)
         (SymbolInformation_Kind v) (SymbolInformation_ContainerName v))
  | None =>
      ("", "",
       symbolMatches (EqualFold_hasUnicode env) symbolName (GetName symbol) 0 "")
  end.

(** One iteration of [for _, symbol := range results]. *)
Definition symbol_step (symbolName : string) (vars : loop_vars)
    (symbol : WorkspaceSymbolResult) : loop_vars :=
  let '(kind, container, matches) := symbol_switch symbolName symbol in
  if negb matches then vars
  else
    let loc := GetLocation symbol in
    match lsp.OpenFile client (Path env (Location_URI loc)) (client_state vars) with
    | (Some err, st) => with_state vars st
    | (None, st) =>
        let defParams :=
          {| DefinitionParams_TextDocumentPositionParams :=
               {| TextDocument := {| TextDocumentIdentifier_URI := Location_URI loc |};
                  Position_ := Start (Location_Range loc) |} |} in
        match lsp.Client_Definition client defParams st with
        | (Err err, st) => with_state vars st
        | (Ok defResult, st) =>
            match extractDefinitionLocations defResult with
            | Err err => with_state vars st
            | Ok defLocations =>
                fold_left (definition_step symbol kind container) defLocations
                  (with_state vars st)
            end
        end
    end.

(** The state of the variables after the outer loop. *)
Definition ReadDefinition_loop (symbolName : string)
    (results : list WorkspaceSymbolResult) (st : St) : loop_vars :=
  fold_left (symbol_step symbolName) results
    {| definitions := []; seenLocations := ∅; visited := []; client_state := st |}.

(** [ReadDefinition(ctx, client, symbolName)]: the returned [(string, error)]
    and the client state it leaves. *)
Definition ReadDefinition (symbolName : string) (st : St)
  : (string * option string) * St :=
  match lsp.Symbol client {| Query := symbolName |} st with
  | (Err err, st) => (("", Some ("failed to fetch symbol: " +:+ err)), st)
  | (Ok symbolResult, st) =>
      match Results symbolResult with
      | Err err => (("", Some ("failed to parse results: " +:+ err)), st)
      | Ok results =>
          let vars := ReadDefinition_loop symbolName results st in
          if Z.of_nat (List.length (definitions vars)) =? 0
          then ((symbolName +:+ " not found", None), client_state vars)
          else ((Join (map snd (definitions vars)) "", None), client_state vars)
      end
  end.

End ReadDefinition.

Arguments loop_vars : clear implicits.

(** *** [GetCallHierarchy] *)

(** [params], the request of [textDocument/prepareCallHierarchy]. *)
Definition GetCallHierarchy_params (filePath : string) (line column : Z)
  : CallHierarchyPrepareParams :=
  let uri := "file://" +:+ filePath in
  {| CallHierarchyPrepareParams_TextDocumentPositionParams :=
       {| TextDocument := {| TextDocumentIdentifier_URI := uri |};
          Position_ := {| Line := uint32 (int_sub line 1);
                          Character := uint32 (int_sub column 1) |} |} |}.

(** The heading: [title] and the item's name, detail, file and line. *)
Definition call_heading (title : string) (item : CallHierarchyItem) : string :=
  let result := title +:+ CallHierarchyItem_Name item in
  let result :=
    if negb (String.eqb (CallHierarchyItem_Detail item) "")
    then result +:+ " (" +:+ CallHierarchyItem_Detail item +:+ ")"
    else result in
  result +:+ " at " +:+ TrimPrefix (CallHierarchyItem_URI item) "file://" +:+ ":" +:+
  fmt.d (uint32_add (Line (Start (CallHierarchyItem_Range item))) 1) +:+
  fmt.nl +:+ fmt.nl.

(** [fmt.Sprintf("L%d:C%d", r.Start.Line+1, r.Start.Character+1)] *)
Definition call_site (r : Range) : string :=
  "L" +:+ fmt.d (uint32_add (Line (Start r)) 1) +:+
  ":C" +:+ fmt.d (uint32_add (Character (Start r)) 1).

(** The body of [for i, call := range ...]: [other] is [call.From] or
    [call.To], [label] the text before the list of ranges. *)
Definition call_entry (label : string) (result : string) (i : Z)
    (other : CallHierarchyItem) (FromRanges : list Range) : string :=
  let file := TrimPrefix (CallHierarchyItem_URI other) "file://" in
  let line := uint32_add (Line (Start (CallHierarchyItem_Range other))) 1 in
  let result := result +:+ fmt.d (int_add i 1) +:+ ". " +:+ CallHierarchyItem_Name other in
  let result :=
    if negb (String.eqb (CallHierarchyItem_Detail other) "")
    then result +:+ " (" +:+ CallHierarchyItem_Detail other +:+ ")"
    else result in
  let result := result +:+ " at " +:+ file +:+ ":" +:+ fmt.d line +:+ fmt.nl in
  if 0 <? Z.of_nat (List.length FromRanges)
  then
    let ranges := fold_left (fun ranges r => (ranges ++ [call_site r])%list) FromRanges [] in
    result +:+ "   " +:+ label +:+ Join ranges ", " +:+ fmt.nl
  else result.

(** A [for i, x := range xs] loop over the builder [result]. *)
Fixpoint range_loop {A : Type} (body : string -> Z -> A -> string)
    (i : Z) (xs : list A) (result : string) : string :=
  match xs with
  | [] => result
  | x :: xs' => range_loop body (i + 1) xs' (body result i x)
  end.

Section GetCallHierarchy.

Context {St : Type}.
Variable client : lsp.Client St.

Definition GetCallHierarchy (filePath : string) (line column : Z) (direction : string)
    (st : St) : (string * option string) * St :=
  if negb (String.eqb direction "incoming") && negb (String.eqb direction "outgoing")
  then (("", Some ("direction must be 'incoming' or 'outgoing', got: " +:+ direction)), st)
  else
    match lsp.OpenFile client filePath st with
    | (Some err, st) => (("", Some ("failed to open file: " +:+ err)), st)
    | (None, st) =>
        let params := GetCallHierarchy_params filePath line column in
        match lsp.PrepareCallHierarchy client params st with
        | (Err err, st) => (("", Some ("failed to prepare call hierarchy: " +:+ err)), st)
        | (Ok items, st) =>
            match items with
            | [] =>
                (("No symbol found at " +:+ filePath +:+ ":" +:+ fmt.d line +:+ ":" +:+
                  fmt.d column, None), st)
            | item :: _ =>
                if String.eqb direction "incoming" then
                  let incomingParams := {| CallHierarchyIncomingCallsParams_Item := item |} in
                  match lsp.IncomingCalls client incomingParams st with
                  | (Err err, st) => (("", Some ("failed to get incoming calls: " +:+ err)), st)
                  | (Ok incomingCalls, st) =>
                      let result := call_heading "Incoming calls to: " item in
                      let result :=
                        if Z.of_nat (List.length incomingCalls) =? 0
                        then result +:+ "No incoming calls found" +:+ fmt.nl
                        else
                          range_loop
                            (fun result i call =>
                               call_entry "Call sites: " result i (From call)
                                 (IncomingCall_FromRanges call))
                            0 incomingCalls result in
                      ((result, None), st)
                  end
                else
                  let outgoingParams := {| CallHierarchyOutgoingCallsParams_Item := item |} in
                  match lsp.OutgoingCalls client outgoingParams st with
                  | (Err err, st) => (("", Some ("failed to get outgoing calls: " +:+ err)), st)
                  | (Ok outgoingCalls, st) =>
                      let result := call_heading "Outgoing calls from: " item in
                      let result :=
                        if Z.of_nat (List.length outgoingCalls) =? 0
                        then result +:+ "No outgoing calls found" +:+ fmt.nl
                        else
                          range_loop
                            (fun result i call =>
                               call_entry "Called at: " result i (To call)
                                 (OutgoingCall_FromRanges call))
                            0 outgoingCalls result in
                      ((result, None), st)
                  end
            end
        end
    end.

End GetCallHierarchy.

(** *** [GetCodeActions] and [formatCodeActionKind] ([internal/tools/code-actions.go]) *)

Definition formatCodeActionKind (kind : string) : string :=
  if Contains kind "quickfix" then "QuickFix"
  else if Contains kind "refactor.extract" then "Refactor.Extract"
  else if Contains kind "refactor.inline" then "Refactor.Inline"
  else if Contains kind "refactor.rewrite" then "Refactor.Rewrite"
  else if Contains kind "refactor" then "Refactor"
  else if Contains kind "source.organizeImports" then "Source.OrganizeImports"
  else if Contains kind "source.fixAll" then "Source.FixAll"
  else if Contains kind "source" then "Source"
  else kind.

(** [m[key]] on a [map[string]any]: nil for a missing key. *)
Fixpoint map_index (m : list (string * any)) (key : string) : option any :=
  match m with
  | [] => None
  | (k, v) :: m' => if String.eqb k key then Some v else map_index m' key
  end.

(** [s, _ := x.(string)]: the empty string when the assertion fails. *)
Definition string_or_zero (x : option any) : string :=
  match x with
  | Some (any_string s) => s
  | _ => ""
  end.

(** [actionRange], the range of the request of [textDocument/codeAction]. *)
Definition GetCodeActions_actionRange (startLine startColumn endLine endColumn : Z)
  : Range :=
  {| Start := {| Line := uint32 (int_sub startLine 1);
                 Character := uint32 (int_sub startColumn 1) |};
     End_ := {| Line := uint32 (int_sub endLine 1);
                Character := uint32 (int_sub endColumn 1) |} |}.

(** The body of [for i, actionItem := range actions]. *)
Definition code_action_entry (n : Z) (result : string) (i : Z)
    (actionItem : Or_Result_textDocument_codeAction_Item0_Elem) : string :=
  match codeAction_Value actionItem with
  | None => result
  | Some value =>
      let result :=
        match value with
        | any_map v =>
            let title := string_or_zero (map_index v "title") in
            let kindStr := string_or_zero (map_index v "kind") in
            let kind :=
              if negb (String.eqb kindStr "") then formatCodeActionKind kindStr
              else "Unknown" in
            let result :=
              result +:+ fmt.d (int_add i 1) +:+ ". [" +:+ kind +:+ "] " +:+ title +:+ fmt.nl in
            match map_index v "command" with
            | Some (any_map cmdMap) =>
                match map_index cmdMap "command" with
                | Some (any_string cmdName) =>
                    result +:+ "   Command: " +:+ cmdName +:+ fmt.nl
                | _ => result
                end
            | _ => result
            end
        | _ => result +:+ fmt.d (int_add i 1) +:+ ". Unknown action type" +:+ fmt.nl
        end in
      if i <? int_sub n 1 then result +:+ fmt.nl else result
  end.

Section GetCodeActions.

Context {St : Type}.
Variable client : lsp.Client St.

Definition GetCodeActions (filePath : string)
    (startLine startColumn endLine endColumn : Z) (st : St)
  : (string * option string) * St :=
  match lsp.OpenFile client filePath st with
  | (Some err, st) => (("", Some ("could not open file: " +:+ err)), st)
  | (None, st) =>
      let uri := "file://" +:+ filePath in
      let '(diagnostics, st) := lsp.GetFileDiagnostics client uri st in
      let actionRange :=
        GetCodeActions_actionRange startLine startColumn endLine endColumn in
      let params :=
        {| CodeActionParams_TextDocument := {| TextDocumentIdentifier_URI := uri |};
           CodeActionParams_Range := actionRange;
           Context_ := {| Diagnostics := diagnostics |} |} in
      match lsp.CodeAction client params st with
      | (Err err, st) => (("", Some ("failed to get code actions: " +:+ err)), st)
      | (Ok actions, st) =>
          let n := Z.of_nat (List.length actions) in
          if n =? 0 then (("No code actions available", None), st)
          else
            let result :=
              "Code Actions (" +:+ fmt.d n +:+ " available):" +:+ fmt.nl +:+ fmt.nl in
            ((range_loop (code_action_entry n) 0 actions result, None), st)
      end
  end.

End GetCodeActions.

(** *** The requests of [GetSignatureHelp] and [GetCompletions]

    Both functions build their request from the 1-indexed arguments in the
    same way; the text they return carries no line or column. *)

(** [params] as passed to [client.SignatureHelp]. *)
Definition GetSignatureHelp_params (filePath : string) (line column : Z)
  : SignatureHelpParams :=
  let position := {| Line := uint32 (int_sub line 1);
                     Character := uint32 (int_sub column 1) |} in
  let uri := "file://" +:+ filePath in
  {| SignatureHelpParams_TextDocument := {| TextDocumentIdentifier_URI := uri |};
     SignatureHelpParams_Position := position |}.

(** [params] as passed to [client.Completion]. *)
Definition GetCompletions_params (filePath : string) (line column : Z)
  : CompletionParams :=
  let position := {| Line := uint32 (int_sub line 1);
                     Character := uint32 (int_sub column 1) |} in
  let uri := "file://" +:+ filePath in
  {| CompletionParams_TextDocument := {| TextDocumentIdentifier_URI := uri |};
     CompletionParams_Position := position |}.

(** *** [formatDocumentSymbol] and [formatSymbolInformation]

    The [*strings.Builder] argument is the text written so far; the result
    is the text after the call. *)

(** [strings.Repeat(s, count)] for [count >= 0]. *)
Definition Repeat (s : string) (count : Z) : string :=
  Nat.iter (Z.to_nat count) (fun acc => s +:+ acc) "".

(** [" [%d:%d-%d:%d]\n"] applied to the four numbers. *)
Definition range_suffix (startLine startCol endLine endCol : Z) : string :=
  " [" +:+ fmt.d startLine +:+ ":" +:+ fmt.d startCol +:+ "-" +:+
  fmt.d endLine +:+ ":" +:+ fmt.d endCol +:+ "]" +:+ fmt.nl.

Section DocumentSymbols.

Variable TableKindMap : SymbolKind -> string.

Fixpoint formatDocumentSymbol (output : string) (symbol : DocumentSymbol) (depth : Z)
  : string :=
  match symbol with
  | mkDocumentSymbol Name Detail Kind Range_ Children =>
      let indent := Repeat "│   " depth in
      let indent :=
        if 0 <? depth then Repeat "│   " (int_sub depth 1) +:+ "├── " else indent in
      let kindStr := TableKindMap Kind in
      let startLine := uint32_add (Line (Start Range_)) 1 in
      let endLine := uint32_add (Line (End_ Range_)) 1 in
      let line := indent +:+ kindStr +:+ " " +:+ Name in
      let line :=
        if negb (String.eqb Detail "") then line +:+ " (" +:+ Detail +:+ ")" else line in
      let line :=
        line +:+ range_suffix startLine (uint32_add (Character (Start Range_)) 1)
                   endLine (uint32_add (Character (End_ Range_)) 1) in
      let output := output +:+ line in
      fold_left (fun output child => formatDocumentSymbol output child (int_add depth 1))
        Children output
  end.

Definition formatSymbolInformation (output : string) (symbol : SymbolInformation)
  : string :=
  let kindStr := TableKindMap (SymbolInformation_Kind symbol) in
  let startLine :=
    uint32_add (Line (Start (Location_Range (SymbolInformation_Location symbol)))) 1 in
  let endLine :=
    uint32_add (Line (End_ (Location_Range (SymbolInformation_Location symbol)))) 1 in
  let line := "• " +:+ kindStr +:+ " " +:+ SymbolInformation_Name symbol in
  let line :=
    if negb (String.eqb (SymbolInformation_ContainerName symbol) "")
    then line +:+ " (in " +:+ SymbolInformation_ContainerName symbol +:+ ")"
    else line in
  let line :=
    line +:+
    range_suffix startLine
      (uint32_add (Character (Start (Location_Range (SymbolInformation_Location symbol)))) 1)
      endLine
      (uint32_add (Character (End_ (Location_Range (SymbolInformation_Location symbol)))) 1) in
  output +:+ line.

End DocumentSymbols.

(** *** [GetDocumentSymbols]

    The element type of a document-symbol answer is an interface; the type
    switch of the tool knows [*DocumentSymbol] and [*SymbolInformation] and
    has no case for anything else. *)

Inductive DocumentSymbolResult : Type :=
  | ptr_DocumentSymbol (v : DocumentSymbol)
  | ptr_SymbolInformation (v : SymbolInformation)
  | DocumentSymbolResult_other (type_name : string).

(** The answer of [textDocument/documentSymbol], given by what its method
    [Results()] returns. *)
Record Or_Result_textDocument_documentSymbol :=
  { documentSymbol_Results : result (list DocumentSymbolResult) }.

Record DocumentSymbolParams :=
  { DocumentSymbolParams_TextDocument : TextDocumentIdentifier }.

Section GetDocumentSymbols.

Context {St : Type}.
Variable client : lsp.Client St.

(** The method [client.DocumentSymbol]. *)
Variable client_DocumentSymbol :
  DocumentSymbolParams -> St -> result Or_Result_textDocument_documentSymbol * St.

Variable TableKindMap : SymbolKind -> string.

Definition GetDocumentSymbols (filePath : string) (st : St)
  : (string * option string) * St :=
  match lsp.OpenFile client filePath st with
  | (Some err, st) => (("", Some ("could not open file: " +:+ err)), st)
  | (None, st) =>
      let params :=
        {| DocumentSymbolParams_TextDocument :=
             {| TextDocumentIdentifier_URI := "file://" +:+ filePath |} |} in
      match client_DocumentSymbol params st with
      | (Err err, st) => (("", Some ("failed to get document symbols: " +:+ err)), st)
      | (Ok symbolResult, st) =>
          match documentSymbol_Results symbolResult with
          | Err err => (("", Some ("failed to parse symbol results: " +:+ err)), st)
          | Ok results =>
              if Z.of_nat (List.length results) =? 0
              then (("No symbols found", None), st)
              else
                let output :=
                  "Document Symbols for " +:+ filePath +:+ ":" +:+ fmt.nl +:+ fmt.nl in
                let output :=
                  fold_left
                    (fun output symbol =>
                       match symbol with
                       | ptr_DocumentSymbol v => formatDocumentSymbol TableKindMap output v 0
                       | ptr_SymbolInformation v =>
                           formatSymbolInformation TableKindMap output v
                       | DocumentSymbolResult_other _ => output
                       end)
                    results output in
                ((output, None), st)
          end
      end
  end.

End GetDocumentSymbols.

(** *** [GetSignatureHelp]

    A slice expression with bounds out of order panics: the function yields
    [None] when it panics and [Some] of what it returns otherwise. *)

(** [param.Label.Value.(type)]: a string, a pair of offsets into the
    signature label, or anything else (nil included). *)
Inductive ParameterLabel : Type :=
  | Label_string (v : string)
  | Label_offsets (Fld0 Fld1 : Z)
  | Label_other.

(** The [Value] of a documentation field: a string, a [MarkupContent] with
    its [Value], or anything else (nil included). *)
Inductive Documentation_Value : Type :=
  | Documentation_string (v : string)
  | Documentation_MarkupContent (Value : string)
  | Documentation_other.

Record ParameterInformation := {
  ParameterInformation_Label : ParameterLabel;
  ParameterInformation_Documentation : option Documentation_Value
}.

Record SignatureInformation := {
  SignatureInformation_Label : string;
  Parameters : list ParameterInformation;
  SignatureInformation_Documentation : option Documentation_Value
}.

(** [ActiveSignature] and [ActiveParameter] are [uint32]. *)
Record SignatureHelp := {
  Signatures : list SignatureInformation;
  ActiveSignature : Z;
  ActiveParameter : Z
}.

(** [s[low:high]] for [0 <= low] and [0 <= high]: it panics unless
    [low <= high <= len(s)]. *)
Definition slice (s : string) (low high : Z) : option string :=
  if (low <=? high) && (high <=? len s)
  then Some (take (Z.to_nat (high - low)) (drop (Z.to_nat low) s))
  else None.

(** A [for i, x := range xs] loop whose body may panic. *)
Fixpoint range_loop_panic {A : Type} (body : string -> Z -> A -> option string)
    (i : Z) (xs : list A) (result : string) : option string :=
  match xs with
  | [] => Some result
  | x :: xs' =>
      match body result i x with
      | Some result' => range_loop_panic body (i + 1) xs' result'
      | None => None
      end
  end.

(** The body of [for j, param := range sig.Parameters]. *)
Definition parameter_entry (sigLabel : string) (activeParameterIdx : Z)
    (result : string) (j : Z) (param : ParameterInformation) : option string :=
  match
    match ParameterInformation_Label param with
    | Label_string v => Some v
    | Label_offsets start end_ =>
        if (start <? len sigLabel) && (end_ <=? len sigLabel)
        then slice sigLabel start end_
        else Some ""
    | Label_other => Some ""
    end
  with
  | None => None
  | Some paramLabel =>
      let activeMarker := if j =? activeParameterIdx then "▶" else " " in
      let paramDoc :=
        match ParameterInformation_Documentation param with
        | Some (Documentation_string v) => " - " +:+ v
        | Some (Documentation_MarkupContent v) => " - " +:+ v
        | _ => ""
        end in
      Some (result +:+ "  " +:+ activeMarker +:+ " " +:+ paramLabel +:+ paramDoc +:+ fmt.nl)
  end.

(** The body of [for i, sig := range signatureResult.Signatures]. *)
Definition signature_entry (activeSignatureIdx activeParameterIdx : Z)
    (result : string) (i : Z) (sig : SignatureInformation) : option string :=
  let prefix := if i =? activeSignatureIdx then "▶ " else "  " in
  let result := result +:+ prefix +:+ SignatureInformation_Label sig +:+ fmt.nl in
  if i =? activeSignatureIdx then
    match
      if 0 <? Z.of_nat (List.length (Parameters sig))
      then
        range_loop_panic
          (parameter_entry (SignatureInformation_Label sig) activeParameterIdx)
          0 (Parameters sig) (result +:+ fmt.nl +:+ "Parameters:" +:+ fmt.nl)
      else Some result
    with
    | None => None
    | Some result =>
        match SignatureInformation_Documentation sig with
        | None => Some result
        | Some v =>
            let result := result +:+ fmt.nl +:+ "Documentation:" +:+ fmt.nl in
            match v with
            | Documentation_string v => Some (result +:+ v +:+ fmt.nl)
            | Documentation_MarkupContent v => Some (result +:+ v +:+ fmt.nl)
            | Documentation_other => Some result
            end
        end
    end
  else Some result.

(** [activeSignatureIdx]: the active signature of the answer, or 0 when
    that index is out of range. *)
Definition activeSignatureIdx (signatureResult : SignatureHelp) : Z :=
  let idx := ActiveSignature signatureResult in
  if Z.of_nat (List.length (Signatures signatureResult)) <=? idx then 0 else idx.

Section GetSignatureHelp.

Context {St : Type}.
Variable client : lsp.Client St.

(** The method [client.SignatureHelp]. *)
Variable client_SignatureHelp : SignatureHelpParams -> St -> result SignatureHelp * St.

(** The helper [ExtractTextFromLocation] of package [tools]: the text and
    the error it returns. *)
Variable ExtractTextFromLocation : Location -> string * option string.

Definition GetSignatureHelp (filePath : string) (line column : Z) (st : St)
  : option ((string * option string) * St) :=
  match lsp.OpenFile client filePath st with
  | (Some err, st) => Some (("", Some ("could not open file: " +:+ err)), st)
  | (None, st) =>
      let params := GetSignatureHelp_params filePath line column in
      let position := SignatureHelpParams_Position params in
      let uri := "file://" +:+ filePath in
      match client_SignatureHelp params st with
      | (Err err, st) => Some (("", Some ("failed to get signature help: " +:+ err)), st)
      | (Ok signatureResult, st) =>
          if Z.of_nat (List.length (Signatures signatureResult)) =? 0 then
            let '(lineText, err) :=
              ExtractTextFromLocation
                {| Location_URI := uri;
                   Location_Range :=
                     {| Start := {| Line := Line position; Character := 0 |};
                        End_ := {| Line := uint32_add (Line position) 1;
                                   Character := 0 |} |} |} in
            Some (("No signature help available for this position on the following line:"
                   +:+ fmt.nl +:+ lineText, None), st)
          else
            let activeSignatureIdx := activeSignatureIdx signatureResult in
            let activeParameterIdx := ActiveParameter signatureResult in
            let result := "Signature Help:" +:+ fmt.nl +:+ fmt.nl in
            match
              range_loop_panic (signature_entry activeSignatureIdx activeParameterIdx)
                0 (Signatures signatureResult) result
            with
            | None => None
            | Some result =>
                let result :=
                  if 1 <? Z.of_nat (List.length (Signatures signatureResult))
                  then
                    result +:+ fmt.nl +:+ "Showing " +:+
                    fmt.d (int_add activeSignatureIdx 1) +:+ " of " +:+
                    fmt.d (Z.of_nat (List.length (Signatures signatureResult))) +:+
                    " signatures (▶ marks active signature/parameter)" +:+ fmt.nl
                  else result in
                Some ((result, None), st)
            end
      end
  end.

End GetSignatureHelp.

(** *** Helpers of [GetCompletions] *)

(** [type CompletionItemKind uint32] and its constants. *)
Definition CompletionItemKind := Z.
Definition TextCompletion : CompletionItemKind := 1.
Definition MethodCompletion : CompletionItemKind := 2.
Definition FunctionCompletion : CompletionItemKind := 3.
Definition ConstructorCompletion : CompletionItemKind := 4.
Definition FieldCompletion : CompletionItemKind := 5.
Definition VariableCompletion : CompletionItemKind := 6.
Definition ClassCompletion : CompletionItemKind := 7.
Definition InterfaceCompletion : CompletionItemKind := 8.
Definition ModuleCompletion : CompletionItemKind := 9.
Definition PropertyCompletion : CompletionItemKind := 10.
Definition UnitCompletion : CompletionItemKind := 11.
Definition ValueCompletion : CompletionItemKind := 12.
Definition EnumCompletion : CompletionItemKind := 13.
Definition KeywordCompletion : CompletionItemKind := 14.
Definition SnippetCompletion : CompletionItemKind := 15.
Definition ColorCompletion : CompletionItemKind := 16.
Definition FileCompletion : CompletionItemKind := 17.
Definition ReferenceCompletion : CompletionItemKind := 18.

Definition getCompletionKindString (kind : CompletionItemKind) : string :=
  if kind =? TextCompletion then "Text"
  else if kind =? MethodCompletion then "Method"
  else if kind =? FunctionCompletion then "Function"
  else if kind =? ConstructorCompletion then "Constructor"
  else if kind =? FieldCompletion then "Field"
  else if kind =? VariableCompletion then "Variable"
  else if kind =? ClassCompletion then "Class"
  else if kind =? InterfaceCompletion then "Interface"
  else if kind =? ModuleCompletion then "Module"
  else if kind =? PropertyCompletion then "Property"
  else if kind =? UnitCompletion then "Unit"
  else if kind =? ValueCompletion then "Value"
  else if kind =? EnumCompletion then "Enum"
  else if kind =? KeywordCompletion then "Keyword"
  else if kind =? SnippetCompletion then "Snippet"
  else if kind =? ColorCompletion then "Color"
  else if kind =? FileCompletion then "File"
  else if kind =? ReferenceCompletion then "Reference"
  else "Unknown".

(** [*protocol.Or_CompletionItem_documentation]: a pointer to a struct
    around a [Value interface{}]. *)
Record Or_CompletionItem_documentation := { documentation_Value : option any }.

Definition extractDocumentation (doc : option Or_CompletionItem_documentation) : string :=
  match doc with
  | None => ""
  | Some d =>
      match documentation_Value d with
      | None => ""
      | Some (any_string v) => v
      | Some (any_map v) =>
          match map_index v "value" with
          | Some (any_string value) => value
          | _ => ""
          end
      | Some _ => ""
      end
  end.

Record CompletionItem := {
  CompletionItem_Label : string;
  CompletionItem_Kind : CompletionItemKind;
  CompletionItem_Detail : string;
  CompletionItem_SortText : string;
  CompletionItem_FilterText : string;
  CompletionItem_Documentation : option Or_CompletionItem_documentation
}.

(** The documentation shown for an item: the first line of [docStr], cut to
    97 bytes and an ellipsis when longer than 100 bytes; nothing when the
    first line is empty. *)
Definition documentation_line (docStr : string) : option string :=
  let lines := Split docStr fmt.nl in
  if (0 <? Z.of_nat (List.length lines)) && negb (String.eqb (List.nth 0 lines "") "")
  then
    let doc := List.nth 0 lines "" in
    Some (if 100 <? len doc then take 97 doc +:+ "..." else doc)
  else None.

(** The body of [for i, item := range items] in [GetCompletions]. *)
Definition completion_entry (output : string) (i : Z) (item : CompletionItem) : string :=
  let kindStr := getCompletionKindString (CompletionItem_Kind item) in
  let output :=
    output +:+ fmt.d (int_add i 1) +:+ ". [" +:+ kindStr +:+ "] " +:+
    CompletionItem_Label item in
  let output :=
    if negb (String.eqb (CompletionItem_Detail item) "")
    then output +:+ fmt.nl +:+ "   Type: " +:+ CompletionItem_Detail item
    else output in
  let output :=
    match CompletionItem_Documentation item with
    | None => output
    | Some _ =>
        let docStr := extractDocumentation (CompletionItem_Documentation item) in
        if negb (String.eqb docStr "")
        then
          match documentation_line docStr with
          | Some doc => output +:+ fmt.nl +:+ "   Doc: " +:+ doc
          | None => output
          end
        else output
    end in
  output +:+ fmt.nl +:+ fmt.nl.

End tools.

(** ** Vocabulary of the properties *)

Section Vocabulary.

Import protocol GoStrings lsp.

(** A wrapper is set when the pointer is not nil and the [Value] inside the
    struct it points to is not nil. *)
Definition wrapper_set {W : Type} (Value : W -> option any) (p : option W) : Prop :=
  exists w v, p = Some w /\ Value w = Some v.

(** The same, as a boolean. *)
Definition wrapper_setb {W : Type} (Value : W -> option any) (p : option W) : bool :=
  match p with
  | Some w => notnil (Value w)
  | None => false
  end.

(** The lower-case form of a byte: [A]..[Z] move to [a]..[z]. *)
Definition lower (c : ascii) : Z :=
  if (65 <=? byte c) && (byte c <=? 90) then byte c + 32 else byte c.

(** [s] and [t] are ASCII strings that differ at most in the case of their
    letters. *)
Fixpoint ascii_fold_eq (s t : string) : Prop :=
  match s, t with
  | EmptyString, EmptyString => True
  | String a s', String b t' =>
      byte a < 128 /\ byte b < 128 /\ lower a = lower b /\ ascii_fold_eq s' t'
  | _, _ => False
  end.

(** The triple that identifies a definition location: its URI and the line
    and column where it starts. *)
Definition key3 (loc : Location) : string * Z * Z :=
  (Location_URI loc, Line (Start (Location_Range loc)),
   Character (Start (Location_Range loc))).


(** No byte of [s] is a colon. *)
Fixpoint no_colon (s : string) : Prop :=
  match s with
  | EmptyString => True
  | String c s' => c <> ":"%char /\ no_colon s'
  end.

(** What the two loops of [ReadDefinition] maintain: the entries collected so
    far have pairwise different keys, each stems from a visited location,
    and the key of every visited location is marked as seen. *)
Record loop_invariant {St : Type} (vars : tools.loop_vars St) : Prop := {
  inv_NoDup :
    NoDup ((fun e => tools.locationKey (fst e)) <$> tools.definitions vars);
  inv_visited :
    forall e, e ∈ tools.definitions vars -> fst e ∈ tools.visited vars;
  inv_seen :
    forall loc, loc ∈ tools.visited vars ->
    tools.seen (tools.seenLocations vars) (tools.locationKey loc) = true
}.

(** When no fetch fails, every key marked as seen has its entry. *)
Definition seen_have_entries {St : Type} (vars : tools.loop_vars St) : Prop :=
  forall key, tools.seen (tools.seenLocations vars) key = true ->
  exists e, e ∈ tools.definitions vars /\ tools.locationKey (fst e) = key.

(** A definition request that resolves nothing: it fails, its answer has an
    unexpected shape, or its answer holds no location. *)
Definition resolves_nothing (answer : result Or_Result_textDocument_definition) : Prop :=
  match answer with
  | Err _ => True
  | Ok defResult =>
      match tools.extractDefinitionLocations defResult with
      | Err _ => True
      | Ok defLocations => defLocations = []
      end
  end.









(** The kinds for which [symbolMatches] tries its fuzzy rule. *)
Definition type_likeb (symbolKind : SymbolKind) : bool :=
  (symbolKind =? Class) || (symbolKind =? Struct) ||
  (symbolKind =? Interface) || (symbolKind =? Enum).

(** The symbols of a tree with their depths, parents before children and
    children in their order: the outline of the tree. *)
Fixpoint outline (symbol : DocumentSymbol) (depth : Z)
  : list (Z * (string * string * SymbolKind * Range)) :=
  match symbol with
  | mkDocumentSymbol Name Detail Kind Range_ Children =>
      (depth, (Name, Detail, Kind, Range_)) ::
      List.flat_map (fun child => outline child (int_add depth 1)) Children
  end.

(** The line of one symbol of the outline. *)
Definition outline_line (TableKindMap : SymbolKind -> string)
    (entry : Z * (string * string * SymbolKind * Range)) : string :=
  let '(depth, (Name, Detail, Kind, Range_)) := entry in
  (((if 0 <? depth then tools.Repeat "│   " (int_sub depth 1) +:+ "├── "
     else tools.Repeat "│   " depth) +:+
    TableKindMap Kind +:+ " " +:+ Name) +:+
   (if negb (String.eqb Detail "") then " (" +:+ Detail +:+ ")" else "")) +:+
  tools.range_suffix
    (uint32_add (Line (Start Range_)) 1) (uint32_add (Character (Start Range_)) 1)
    (uint32_add (Line (End_ Range_)) 1) (uint32_add (Character (End_ Range_)) 1).

(** The texts of a list, one after the other. *)
Definition concat_strings (l : list string) : string :=
  List.fold_right String.append "" l.

(** The text [GetDocumentSymbols] shows for one element of the answer. *)
Definition outline_text (TableKindMap : SymbolKind -> string)
    (symbol : tools.DocumentSymbolResult) : string :=
  match symbol with
  | tools.ptr_DocumentSymbol v =>
      concat_strings (List.map (outline_line TableKindMap) (outline v 0))
  | tools.ptr_SymbolInformation v => tools.formatSymbolInformation TableKindMap "" v
  | tools.DocumentSymbolResult_other _ => ""
  end.

(** A parameter whose label is a pair of offsets that lie within the
    signature label and are out of order. *)
Definition reversed_offsets (sigLabel : string) (param : tools.ParameterInformation) : Prop :=
  exists start end_,
    tools.ParameterInformation_Label param = tools.Label_offsets start end_ /\
    start < len sigLabel /\ end_ <= len sigLabel /\ end_ < start.



End Vocabulary.

(** ** A client that records its calls

    To state in which order a tool calls the client, the client state is
    taken to be the list of the calls made so far, oldest first.  The server
    behind the client is arbitrary: each answer is a function of the calls
    made before and of the request. *)

Module Recording.

Import protocol.

Section Calls.

Context {Diagnostic : Type}.

Inductive call : Type :=
  | Symbol_call (params : WorkspaceSymbolParams)
  | OpenFile_call (path : string) (ok : bool)
  | Definition_call (params : DefinitionParams)
  | PrepareCallHierarchy_call (params : CallHierarchyPrepareParams)
  | IncomingCalls_call (params : CallHierarchyIncomingCallsParams)
  | OutgoingCalls_call (params : CallHierarchyOutgoingCallsParams)
  | GetFileDiagnostics_call (uri : DocumentUri)
  | CodeAction_call (params : CodeActionParams Diagnostic).

Record Server := {
  on_Symbol : list call -> WorkspaceSymbolParams -> result Or_Result_workspace_symbol;
  on_OpenFile : list call -> string -> option string;
  on_Definition : list call -> DefinitionParams -> result Or_Result_textDocument_definition;
  on_PrepareCallHierarchy :
    list call -> CallHierarchyPrepareParams -> result (list CallHierarchyItem);
  on_IncomingCalls :
    list call -> CallHierarchyIncomingCallsParams -> result (list CallHierarchyIncomingCall);
  on_OutgoingCalls :
    list call -> CallHierarchyOutgoingCallsParams -> result (list CallHierarchyOutgoingCall);
  on_GetFileDiagnostics : list call -> DocumentUri -> list Diagnostic;
  on_CodeAction :
    list call -> CodeActionParams Diagnostic ->
    result (list Or_Result_textDocument_codeAction_Item0_Elem)
}.

Definition is_nil (err : option string) : bool :=
  match err with None => true | Some _ => false end.

(** The client in front of [server]. *)
Definition client (server : Server) : lsp.Client (list call) :=
  {| lsp.Symbol := fun params log =>
       (on_Symbol server log params, (log ++ [Symbol_call params])%list);
     lsp.OpenFile := fun path log =>
       (on_OpenFile server log path,
        (log ++ [OpenFile_call path (is_nil (on_OpenFile server log path))])%list);
     lsp.Client_Definition := fun params log =>
       (on_Definition server log params, (log ++ [Definition_call params])%list);
     lsp.PrepareCallHierarchy := fun params log =>
       (on_PrepareCallHierarchy server log params,
        (log ++ [PrepareCallHierarchy_call params])%list);
     lsp.IncomingCalls := fun params log =>
       (on_IncomingCalls server log params, (log ++ [IncomingCalls_call params])%list);
     lsp.OutgoingCalls := fun params log =>
       (on_OutgoingCalls server log params, (log ++ [OutgoingCalls_call params])%list);
     lsp.Diagnostic := Diagnostic;
     lsp.GetFileDiagnostics := fun uri log =>
       (on_GetFileDiagnostics server log uri, (log ++ [GetFileDiagnostics_call uri])%list);
     lsp.CodeAction := fun params log =>
       (on_CodeAction server log params, (log ++ [CodeAction_call params])%list) |}.

(** Every definition request in [log] comes right after a successful
    [OpenFile] of the file it addresses, [path_of] giving the path of a
    URI. *)
Definition definitions_after_open (path_of : DocumentUri -> string) (log : list call)
  : Prop :=
  forall (i : nat) (params : DefinitionParams),
  log !! i = Some (Definition_call params) ->
  exists j : nat,
    i = S j /\
    log !! j =
      Some (OpenFile_call
              (path_of (TextDocumentIdentifier_URI
                          (TextDocument
                             (DefinitionParams_TextDocumentPositionParams params))))
              true).

Definition is_Definition_call (c : call) : Prop :=
  match c with Definition_call _ => True | _ => False end.

End Calls.

Arguments call : clear implicits.
Arguments Server : clear implicits.

End Recording.

(** ** A concrete language server, for running the tools *)

Module Scenario.

Import protocol GoStrings tools.

(** The client state counts the requests sent so far. *)
Definition St : Type := nat.

Definition position (line character : Z) : Position :=
  {| Line := line; Character := character |}.

Definition location (uri : string) (l1 c1 l2 c2 : Z) : Location :=
  {| Location_URI := uri;
     Location_Range := {| Start := position l1 c1; End_ := position l2 c2 |} |}.

(** Two call sites of one method, and the place where it is defined. *)
Definition site_main : Location := location "file:///src/main.cpp" 10 4 10 10.
Definition site_util : Location := location "file:///src/util.cpp" 20 8 20 14.
Definition site_other : Location := location "file:///src/util.cpp" 30 0 30 12.
Definition method_definition : Location :=
  location "file:///src/test_class.cpp" 4 2 6 3.

(** What [workspace/symbol] answers: the method under two naming
    conventions, and a symbol the filter rejects. *)
Definition results : list WorkspaceSymbolResult :=
  [ {| GetName := "TestClass::method"; GetLocation := site_main;
       as_SymbolInformation :=
         Some {| SymbolInformation_Name := "TestClass::method";
                 SymbolInformation_Kind := Method;
                 SymbolInformation_ContainerName := "TestClass";
                 SymbolInformation_Location := site_main |} |};
    {| GetName := "TestClass.method"; GetLocation := site_util;
       as_SymbolInformation := None |};
    {| GetName := "other_method"; GetLocation := site_other;
       as_SymbolInformation := None |} ].

(** [textDocument/definition] answers with the one definition, as a plain
    location for a position in [main.cpp] and as a link otherwise. *)
Definition definition_of (params : DefinitionParams) : Or_Result_textDocument_definition :=
  let uri :=
    TextDocumentIdentifier_URI
      (TextDocument (DefinitionParams_TextDocumentPositionParams params)) in
  if String.eqb uri "file:///src/main.cpp"
  then {| definition_result_Value :=
            Some (Value_Definition
                    {| Definition_Value := Value_Location method_definition |}) |}
  else {| definition_result_Value :=
            Some (Value_DefinitionLinks
                    [ {| TargetURI := Location_URI method_definition;
                         TargetRange := Location_Range method_definition |} ]) |}.

Definition the_item : CallHierarchyItem :=
  {| CallHierarchyItem_Name := "method"; CallHierarchyItem_Detail := "TestClass";
     CallHierarchyItem_URI := Location_URI method_definition;
     CallHierarchyItem_Range := Location_Range method_definition |}.

Definition caller : CallHierarchyItem :=
  {| CallHierarchyItem_Name := "main"; CallHierarchyItem_Detail := "";
     CallHierarchyItem_URI := Location_URI site_main;
     CallHierarchyItem_Range := {| Start := position 8 0; End_ := position 12 1 |} |}.

Definition client : lsp.Client St :=
  {| lsp.Symbol := fun _ n => (Ok {| Results := Ok results |}, S n);
     lsp.OpenFile := fun _ n => (None, S n);
     lsp.Client_Definition := fun params n => (Ok (definition_of params), S n);
     lsp.PrepareCallHierarchy := fun _ n => (Ok [the_item], S n);
     lsp.IncomingCalls :=
       fun _ n => (Ok [ {| From := caller;
                           IncomingCall_FromRanges := [Location_Range site_main] |} ], S n);
     lsp.OutgoingCalls := fun _ n => (Ok [], S n);
     lsp.Diagnostic := unit;
     lsp.GetFileDiagnostics := fun _ n => ([], n);
     lsp.CodeAction := fun _ n => (Ok [], S n) |}.

(** The same server when every definition request fails. *)
Definition client_unresolved : lsp.Client St :=
  {| lsp.Symbol := lsp.Symbol client;
     lsp.OpenFile := lsp.OpenFile client;
     lsp.Client_Definition := fun _ n => (Err "request failed", S n);
     lsp.PrepareCallHierarchy := lsp.PrepareCallHierarchy client;
     lsp.IncomingCalls := lsp.IncomingCalls client;
     lsp.OutgoingCalls := lsp.OutgoingCalls client;
     lsp.Diagnostic := unit;
     lsp.GetFileDiagnostics := fun _ n => ([], n);
     lsp.CodeAction := fun _ n => (Ok [], S n) |}.

(** A [Sprintf] for formats whose only verbs are [%s] and [%d], applied to
    operands of the matching kinds. *)
Fixpoint Sprintf_sd (format : string) (operands : list fmt.arg) : string :=
  match format with
  | String "%" (String v rest) =>
      match operands with
      | fmt.arg_string s :: operands' => s +:+ Sprintf_sd rest operands'
      | fmt.arg_int z :: operands' => fmt.d z +:+ Sprintf_sd rest operands'
      | fmt.arg_uint32 z :: operands' => fmt.d z +:+ Sprintf_sd rest operands'
      | [] => Sprintf_sd rest []
      end
  | String c rest => String c (Sprintf_sd rest operands)
  | EmptyString => EmptyString
  end.

Definition env : Env St :=
  {| EqualFold_hasUnicode := fun _ _ => false;
     Sprintf := Sprintf_sd;
     TableKindMap := fun kind => if kind =? Method then "Method" else "";
     Path := fun uri => TrimPrefix uri "file://";
     GetFullDefinition :=
       fun _ loc n => (("void TestClass::method() {}", loc, None), S n);
     addLineNumbers := fun text line => fmt.d line +:+ "|" +:+ text |}.

(** Capabilities of a server that declares definitions but no workspace
    symbols. *)
Definition definition_only : ServerCapabilities unit unit :=
  {| DefinitionProvider := Some {| definitionProvider_Value := Some (any_bool true) |};
     ReferencesProvider := Some {| referencesProvider_Value := None |};
     HoverProvider := None;
     DocumentSymbolProvider := None;
     CallHierarchyProvider := None;
     WorkspaceSymbolProvider := None;
     RenameProvider := Some (any_bool true);
     CodeActionProvider := Some (any_map [("codeActionKinds", any_slice [any_string "quickfix"])]);
     SignatureHelpProvider := Some tt;
     CodeLensProvider := None |}.

(** The server of this scenario behind a recording client: it answers as
    [client] does, whatever was called before. *)
Definition server : Recording.Server unit :=
  {| Recording.on_Symbol := fun _ _ => Ok {| Results := Ok results |};
     Recording.on_OpenFile := fun _ _ => None;
     Recording.on_Definition := fun _ params => Ok (definition_of params);
     Recording.on_PrepareCallHierarchy := fun _ _ => Ok [the_item];
     Recording.on_IncomingCalls :=
       fun _ _ => Ok [ {| From := caller;
                          IncomingCall_FromRanges := [Location_Range site_main] |} ];
     Recording.on_OutgoingCalls := fun _ _ => Ok [];
     Recording.on_GetFileDiagnostics := fun _ _ => [];
     Recording.on_CodeAction := fun _ _ => Ok [] |}.

(** The helpers of [env], for a client state that is a list of calls;
    [GetFullDefinition] calls nothing. *)
Definition recording_env : Env (list (Recording.call unit)) :=
  {| EqualFold_hasUnicode := fun _ _ => false;
     Sprintf := Sprintf_sd;
     TableKindMap := TableKindMap env;
     Path := Path env;
     GetFullDefinition :=
       fun _ loc log => (("void TestClass::method() {}", loc, None), log);
     addLineNumbers := addLineNumbers env |}.

(** A server whose code actions are one quick fix with a command, one
    action without a value, and one refactoring. *)
Definition the_actions : list Or_Result_textDocument_codeAction_Item0_Elem :=
  [ {| codeAction_Value :=
         Some (any_map [ ("title", any_string "Add missing include");
                         ("kind", any_string "quickfix");
                         ("command",
                          any_map [("command", any_string "clangd.applyFix")]) ]) |};
    {| codeAction_Value := None |};
    {| codeAction_Value :=
         Some (any_map [ ("title", any_string "Extract function");
                         ("kind", any_string "refactor.extract.function") ]) |} ].

Definition client_with_actions
    (actions : list Or_Result_textDocument_codeAction_Item0_Elem) : lsp.Client St :=
  {| lsp.Symbol := lsp.Symbol client;
     lsp.OpenFile := lsp.OpenFile client;
     lsp.Client_Definition := lsp.Client_Definition client;
     lsp.PrepareCallHierarchy := lsp.PrepareCallHierarchy client;
     lsp.IncomingCalls := lsp.IncomingCalls client;
     lsp.OutgoingCalls := lsp.OutgoingCalls client;
     lsp.Diagnostic := unit;
     lsp.GetFileDiagnostics := fun _ n => ([], n);
     lsp.CodeAction := fun _ n => (Ok actions, S n) |}.

(** The document symbols of the class file: a class with its method, and a
    flat symbol. *)
Definition the_symbols : list DocumentSymbolResult :=
  [ ptr_DocumentSymbol
      (mkDocumentSymbol "TestClass" "" Class
         {| Start := position 2 0; End_ := position 9 1 |}
         [ mkDocumentSymbol "method" "void ()" Method
             (Location_Range method_definition) [] ]);
    DocumentSymbolResult_other "*protocol.Unknown";
    ptr_SymbolInformation
      {| SymbolInformation_Name := "helper";
         SymbolInformation_Kind := Function;
         SymbolInformation_ContainerName := "util";
         SymbolInformation_Location := site_other |} ].

Definition client_DocumentSymbol (params : DocumentSymbolParams) (n : St)
  : result Or_Result_textDocument_documentSymbol * St :=
  (Ok {| documentSymbol_Results := Ok the_symbols |}, S n).

(** A signature answer whose second signature is active; the offsets of its
    second parameter are within the label and out of order when [reversed]
    is set. *)
Definition the_signatures (reversed : bool) : SignatureHelp :=
  {| Signatures :=
       [ {| SignatureInformation_Label := "method()";
            Parameters := [];
            SignatureInformation_Documentation := None |};
         {| SignatureInformation_Label := "method(int a, int b)";
            Parameters :=
              [ {| ParameterInformation_Label := Label_offsets 7 12;
                   ParameterInformation_Documentation :=
                     Some (Documentation_string "first operand") |};
                {| ParameterInformation_Label :=
                     if reversed then Label_offsets 19 14 else Label_offsets 14 19;
                   ParameterInformation_Documentation := None |} ];
            SignatureInformation_Documentation :=
              Some (Documentation_MarkupContent "Adds two numbers.") |} ];
     ActiveSignature := 1;
     ActiveParameter := 1 |}.

Definition client_SignatureHelp (reversed : bool) (params : SignatureHelpParams) (n : St)
  : result SignatureHelp * St :=
  (Ok (the_signatures reversed), S n).

Definition ExtractTextFromLocation (loc : Location) : string * option string :=
  ("  obj.method(1, 2);", None).

End Scenario.

(* ===================================================================== *)
(** * Properties *)
(* ===================================================================== *)

Import protocol GoStrings.

(** ** Capability queries *)

Section CapabilityFacts.

Import lsp.

Context {SignatureHelpOptions CodeLensOptions : Type}.

Abbreviation caps_t := (ServerCapabilities SignatureHelpOptions CodeLensOptions).

Lemma wrapper_setb_spec {W : Type} (Value : W -> option any) (p : option W) :
  wrapper_setb Value p = true <-> wrapper_set Value p.
Proof.
  unfold wrapper_set. destruct p as [w|]; simpl.
  - destruct (Value w) as [v|] eqn:E; simpl; split.
    + intros _. exists w, v. auto.
    + reflexivity.
    + discriminate.
    + intros (w' & v & Hw & Hv). injection Hw as <-. congruence.
  - split; [discriminate | intros (w & v & Hw & _); discriminate].
Qed.

Lemma wrapper_setb_false {W : Type} (Value : W -> option any) (p : option W) :
  wrapper_setb Value p = false <-> ~ wrapper_set Value p.
Proof.
  rewrite <- wrapper_setb_spec. destruct (wrapper_setb Value p); split; congruence.
Qed.

(** The two-part check [p != nil && p.Value != nil] never dereferences nil. *)
Lemma two_part_check {W : Type} (Value : W -> option any) (p : option W) :
  (Some (notnil p) &&& (w ← p; Some (notnil (Value w)))) = Some (wrapper_setb Value p).
Proof. destruct p as [w|]; reflexivity. Qed.

Lemma and_then_Some (a b : bool) : (Some a &&& Some b) = Some (a && b).
Proof. destruct a; reflexivity. Qed.

Lemma HasDefinitionSupport_eq (c : caps_t) :
  HasDefinitionSupport (Some c) =
  Some (wrapper_setb definitionProvider_Value (DefinitionProvider c) &&
        wrapper_setb workspaceSymbolProvider_Value (WorkspaceSymbolProvider c)).
Proof.
  unfold HasDefinitionSupport; simpl.
  destruct (DefinitionProvider c) as [[[d|]]|];
    destruct (WorkspaceSymbolProvider c) as [[[w|]]|]; reflexivity.
Qed.

Lemma HasReferencesSupport_eq (c : caps_t) :
  HasReferencesSupport (Some c) =
  Some (wrapper_setb referencesProvider_Value (ReferencesProvider c)).
Proof. apply two_part_check. Qed.

Lemma HasHoverSupport_eq (c : caps_t) :
  HasHoverSupport (Some c) = Some (wrapper_setb hoverProvider_Value (HoverProvider c)).
Proof. apply two_part_check. Qed.

Lemma HasDocumentSymbolSupport_eq (c : caps_t) :
  HasDocumentSymbolSupport (Some c) =
  Some (wrapper_setb documentSymbolProvider_Value (DocumentSymbolProvider c)).
Proof. apply two_part_check. Qed.

Lemma HasCallHierarchySupport_eq (c : caps_t) :
  HasCallHierarchySupport (Some c) =
  Some (wrapper_setb callHierarchyProvider_Value (CallHierarchyProvider c)).
Proof. apply two_part_check. Qed.

Lemma HasWorkspaceSymbolSupport_eq (c : caps_t) :
  HasWorkspaceSymbolSupport (Some c) =
  Some (wrapper_setb workspaceSymbolProvider_Value (WorkspaceSymbolProvider c)).
Proof. apply two_part_check. Qed.

(** A query that returns the boolean [b] returns true exactly when [P]
    holds and false exactly when it does not, once [b] reflects [P]. *)
Lemma Some_bool_iff (b : bool) (P : Prop) :
  (b = true <-> P) ->
  (Some b = Some true <-> P) /\ (Some b = Some false <-> ~ P).
Proof.
  intros H. destruct b; split; split.
  - intros _. apply H. reflexivity.
  - reflexivity.
  - discriminate.
  - intros HP. exfalso. apply HP, H. reflexivity.
  - discriminate.
  - intros HP. apply H in HP. discriminate.
  - intros _ HP. apply H in HP. discriminate.
  - reflexivity.
Qed.

(** C1 (amended).  For references, hover, document symbols, call hierarchy
    and workspace symbol the support query returns true exactly when the
    wrapper pointer is set and its inner value is not nil, and false
    otherwise.  For definition the query returns true only when the
    definition wrapper is set with a non-nil inner value, and false whenever
    that wrapper is nil or holds a nil value. *)
Theorem wrapper_queries (c : caps_t) :
  ((HasReferencesSupport (Some c) = Some true <->
      wrapper_set referencesProvider_Value (ReferencesProvider c)) /\
   (HasReferencesSupport (Some c) = Some false <->
      ~ wrapper_set referencesProvider_Value (ReferencesProvider c))) /\
  ((HasHoverSupport (Some c) = Some true <->
      wrapper_set hoverProvider_Value (HoverProvider c)) /\
   (HasHoverSupport (Some c) = Some false <->
      ~ wrapper_set hoverProvider_Value (HoverProvider c))) /\
  ((HasDocumentSymbolSupport (Some c) = Some true <->
      wrapper_set documentSymbolProvider_Value (DocumentSymbolProvider c)) /\
   (HasDocumentSymbolSupport (Some c) = Some false <->
      ~ wrapper_set documentSymbolProvider_Value (DocumentSymbolProvider c))) /\
  ((HasCallHierarchySupport (Some c) = Some true <->
      wrapper_set callHierarchyProvider_Value (CallHierarchyProvider c)) /\
   (HasCallHierarchySupport (Some c) = Some false <->
      ~ wrapper_set callHierarchyProvider_Value (CallHierarchyProvider c))) /\
  ((HasWorkspaceSymbolSupport (Some c) = Some true <->
      wrapper_set workspaceSymbolProvider_Value (WorkspaceSymbolProvider c)) /\
   (HasWorkspaceSymbolSupport (Some c) = Some false <->
      ~ wrapper_set workspaceSymbolProvider_Value (WorkspaceSymbolProvider c))) /\
  ((HasDefinitionSupport (Some c) = Some true ->
      wrapper_set definitionProvider_Value (DefinitionProvider c)) /\
   (~ wrapper_set definitionProvider_Value (DefinitionProvider c) ->
      HasDefinitionSupport (Some c) = Some false)).
Proof.
  rewrite HasReferencesSupport_eq, HasHoverSupport_eq, HasDocumentSymbolSupport_eq,
    HasCallHierarchySupport_eq, HasWorkspaceSymbolSupport_eq, HasDefinitionSupport_eq.
  repeat (split; [apply Some_bool_iff, wrapper_setb_spec|]).
  split.
  - intros [= H]. apply andb_true_iff in H. apply wrapper_setb_spec, H.
  - intros H. apply wrapper_setb_false in H. rewrite H. reflexivity.
Qed.

(** C3.  [HasDefinitionSupport] returns true exactly when the definition
    wrapper and the workspace-symbol wrapper are both set with a non-nil
    inner value, and false as soon as one of the two is nil or holds nil. *)
Theorem HasDefinitionSupport_both (c : caps_t) :
  (HasDefinitionSupport (Some c) = Some true <->
     wrapper_set definitionProvider_Value (DefinitionProvider c) /\
     wrapper_set workspaceSymbolProvider_Value (WorkspaceSymbolProvider c)) /\
  (HasDefinitionSupport (Some c) = Some false <->
     ~ (wrapper_set definitionProvider_Value (DefinitionProvider c) /\
        wrapper_set workspaceSymbolProvider_Value (WorkspaceSymbolProvider c))).
Proof.
  rewrite HasDefinitionSupport_eq. apply Some_bool_iff.
  rewrite andb_true_iff, !wrapper_setb_spec. reflexivity.
Qed.

(** C2.  Rename, code action, signature help and code lens are supported
    exactly when their field is not nil, whatever the value in it: the
    boolean [true], the boolean [false] or an options object alike.  The
    query returns false exactly when the field is nil. *)
Theorem plain_queries (c : caps_t) :
  ((HasRenameSupport (Some c) = Some true <-> RenameProvider c <> None) /\
   (HasRenameSupport (Some c) = Some false <-> RenameProvider c = None)) /\
  ((HasCodeActionSupport (Some c) = Some true <-> CodeActionProvider c <> None) /\
   (HasCodeActionSupport (Some c) = Some false <-> CodeActionProvider c = None)) /\
  ((HasSignatureHelpSupport (Some c) = Some true <-> SignatureHelpProvider c <> None) /\
   (HasSignatureHelpSupport (Some c) = Some false <-> SignatureHelpProvider c = None)) /\
  ((HasCodeLensSupport (Some c) = Some true <-> CodeLensProvider c <> None) /\
   (HasCodeLensSupport (Some c) = Some false <-> CodeLensProvider c = None)) /\
  (forall b : bool,
     RenameProvider c = Some (any_bool b) -> HasRenameSupport (Some c) = Some true) /\
  (forall m : list (string * any),
     RenameProvider c = Some (any_map m) -> HasRenameSupport (Some c) = Some true) /\
  (forall b : bool,
     CodeActionProvider c = Some (any_bool b) ->
     HasCodeActionSupport (Some c) = Some true) /\
  (forall m : list (string * any),
     CodeActionProvider c = Some (any_map m) ->
     HasCodeActionSupport (Some c) = Some true).
Proof.
  unfold HasRenameSupport, HasCodeActionSupport, HasSignatureHelpSupport,
    HasCodeLensSupport; simpl.
  destruct (RenameProvider c), (CodeActionProvider c), (SignatureHelpProvider c),
    (CodeLensProvider c); simpl;
    repeat split; intros; congruence.
Qed.

(** C10.  Every support query returns false on a nil capabilities pointer;
    it returns, that is, it does not panic on a nil dereference. *)
Theorem queries_on_nil :
  @HasDefinitionSupport SignatureHelpOptions CodeLensOptions None = Some false /\
  @HasReferencesSupport SignatureHelpOptions CodeLensOptions None = Some false /\
  @HasHoverSupport SignatureHelpOptions CodeLensOptions None = Some false /\
  @HasDocumentSymbolSupport SignatureHelpOptions CodeLensOptions None = Some false /\
  @HasCallHierarchySupport SignatureHelpOptions CodeLensOptions None = Some false /\
  @HasWorkspaceSymbolSupport SignatureHelpOptions CodeLensOptions None = Some false /\
  @HasRenameSupport SignatureHelpOptions CodeLensOptions None = Some false /\
  @HasCodeActionSupport SignatureHelpOptions CodeLensOptions None = Some false /\
  @HasSignatureHelpSupport SignatureHelpOptions CodeLensOptions None = Some false /\
  @HasCodeLensSupport SignatureHelpOptions CodeLensOptions None = Some false.
Proof. repeat split. Qed.

End CapabilityFacts.

(** ** Facts about the string functions *)

Section StringFacts.

Lemma HasPrefix_app (s t : string) : HasPrefix (s +:+ t) s = true.
Proof.
  induction s as [|c s IH]; simpl.
  - reflexivity.
  - rewrite Ascii.eqb_refl. exact IH.
Qed.

Lemma HasPrefix_head (c : ascii) (s s' sub : string) :
  HasPrefix s (String c sub) = true -> exists s', s = String c s'.
Proof.
  destruct s as [|x s0]; simpl; [discriminate|].
  intros H. apply andb_true_iff in H as [H _].
  apply Ascii.eqb_eq in H. subst x. eauto.
Qed.

Lemma Index_from_ge (s sub : string) :
  forall i, Index_from i s sub = -1 \/ i <= Index_from i s sub.
Proof.
  induction s as [|c s IH]; intros i; simpl.
  - destruct (HasPrefix "" sub); [right; lia | left; reflexivity].
  - destruct (HasPrefix (String c s) sub); [right; lia|].
    destruct (IH (i + 1)) as [H|H]; [left; exact H | right; lia].
Qed.

Lemma Index_from_app (pre sub post : string) :
  forall i, 0 <= i -> 0 <= Index_from i (pre +:+ sub +:+ post) sub.
Proof.
  induction pre as [|c pre IH]; intros i Hi.
  - change ("" +:+ sub +:+ post) with (sub +:+ post).
    destruct sub as [|x sub]; [destruct post; simpl; lia|].
    simpl. rewrite Ascii.eqb_refl, HasPrefix_app. simpl. lia.
  - change (String c pre +:+ sub +:+ post) with (String c (pre +:+ sub +:+ post)).
    cbn [Index_from].
    destruct (HasPrefix (String c (pre +:+ sub +:+ post)) sub); [lia|].
    apply IH. lia.
Qed.

(** [Contains] finds every occurrence. *)
Lemma Contains_app (pre sub post : string) :
  Contains (pre +:+ sub +:+ post) sub = true.
Proof.
  unfold Contains, Index. apply Z.leb_le. apply Index_from_app. lia.
Qed.

Lemma Index_from_first_byte (s sub chars : string) (c : ascii) :
  mem_byte c chars = true ->
  forall i, 0 <= i -> 0 <= Index_from i s (String c sub) ->
  ContainsAny s chars = true.
Proof.
  intros Hc. induction s as [|x s IH]; intros i Hi; cbn [Index_from ContainsAny].
  - cbn. lia.
  - destruct (HasPrefix (String x s) (String c sub)) eqn:E.
    + cbn in E. apply andb_true_iff in E as [E _]. apply Ascii.eqb_eq in E. subst x.
      rewrite Hc. reflexivity.
    + intros H. rewrite (IH (i + 1)); [apply orb_true_r | lia | exact H].
Qed.

(** A string that contains [sub] contains the first byte of [sub]. *)
Lemma Contains_first_byte (s sub chars : string) (c : ascii) :
  mem_byte c chars = true ->
  Contains s (String c sub) = true ->
  ContainsAny s chars = true.
Proof.
  intros Hc H. unfold Contains, Index in H. apply Z.leb_le in H.
  apply (Index_from_first_byte s sub chars c Hc 0); [lia | exact H].
Qed.

Lemma length_append (s t : string) :
  String.length (s +:+ t) = (String.length s + String.length t)%nat.
Proof. induction s as [|c s IH]; simpl; [reflexivity | rewrite IH; reflexivity]. Qed.

Lemma drop_append (s t : string) : drop (String.length s) (s +:+ t) = t.
Proof. induction s as [|c s IH]; simpl; [reflexivity | exact IH]. Qed.

Lemma HasSuffix_app (s t : string) : HasSuffix (s +:+ t) t = true.
Proof.
  unfold HasSuffix. rewrite length_append.
  replace (String.length s + String.length t - String.length t)%nat
    with (String.length s) by lia.
  rewrite drop_append, String.eqb_refl, andb_true_r.
  apply Nat.leb_le. lia.
Qed.

End StringFacts.

(** ** Case-insensitive comparison of ASCII strings *)

Section FoldFacts.

Lemma byte_nonneg (c : ascii) : 0 <= byte c.
Proof. unfold byte. lia. Qed.

Lemma lor_below_128 (x y : Z) :
  0 <= x < 128 -> 0 <= y < 128 -> Z.lor x y < 128.
Proof.
  intros Hx Hy.
  assert (H0 : 0 <= Z.lor x y) by (apply Z.lor_nonneg; lia).
  destruct (Z.eq_dec (Z.lor x y) 0) as [E|E]; [lia|].
  change 128 with (2 ^ 7). apply Z.log2_lt_pow2; [lia|].
  rewrite Z.log2_lor by lia.
  destruct (Z.eq_dec x 0) as [->|Nx]; destruct (Z.eq_dec y 0) as [->|Ny].
  - simpl. lia.
  - simpl Z.log2 at 1. assert (Z.log2 y < 7) by (apply Z.log2_lt_pow2; lia).
    pose proof (Z.log2_nonneg y). lia.
  - simpl Z.log2 at 2. assert (Z.log2 x < 7) by (apply Z.log2_lt_pow2; lia).
    pose proof (Z.log2_nonneg x). lia.
  - assert (Z.log2 x < 7) by (apply Z.log2_lt_pow2; lia).
    assert (Z.log2 y < 7) by (apply Z.log2_lt_pow2; lia). lia.
Qed.

Variable hasUnicode : string -> string -> bool.

(** On ASCII strings [strings.EqualFold] accepts every pair that differs
    only in letter case, whatever the Unicode loop does. *)
Lemma EqualFold_ascii (s t : string) :
  ascii_fold_eq s t -> EqualFold hasUnicode s t = true.
Proof.
  revert t. induction s as [|a s IH]; intros [|b t]; simpl; try tauto.
  intros (Ha & Hb & Hl & H).
  pose proof (byte_nonneg a). pose proof (byte_nonneg b).
  pose proof (lor_below_128 (byte a) (byte b)).
  destruct (Z.leb_spec 128 (Z.lor (byte a) (byte b))); [lia|].
  destruct (Z.eqb_spec (byte b) (byte a)); [apply IH, H|].
  unfold lower in Hl.
  destruct (Z.ltb_spec (byte b) (byte a));
    destruct (Z.leb_spec 65 (byte a)); destruct (Z.leb_spec (byte a) 90);
    destruct (Z.leb_spec 65 (byte b)); destruct (Z.leb_spec (byte b) 90);
    simpl in Hl; try lia;
    match goal with
    | |- (if ?c then _ else _) = true =>
        replace c with true; [apply IH, H|];
        symmetry; rewrite andb_true_iff; split; [reflexivity|]; apply Z.eqb_eq; lia
    end.
Qed.

End FoldFacts.

(** ** The matching predicate of the symbol resolver *)

Section SymbolMatchesFacts.

Import tools.

Variable hasUnicode : string -> string -> bool.

(** A query with a ['.'] or a [':'] in it is matched by equality only. *)
Lemma symbolMatches_qualified (query symbolName : string) (symbolKind : SymbolKind)
    (containerName : string) :
  ContainsAny query ".:" = true ->
  symbolMatches hasUnicode query symbolName symbolKind containerName
  = String.eqb symbolName query.
Proof.
  intros H. unfold symbolMatches. rewrite H.
  destruct (String.eqb symbolName query); reflexivity.
Qed.

(** C5.  The query ["method"] matches the candidates ["TestClass::method"]
    and ["TestClass.method"], of any kind and container.  A query that
    contains a scope separator, ["::"] or ["."], matches a candidate exactly
    when the candidate's name is the query itself; so ["TestClass::method"]
    does not match the candidate ["method"]. *)
Theorem symbolMatches_scope_separator (symbolKind : SymbolKind) (containerName : string) :
  symbolMatches hasUnicode "method" "TestClass::method" symbolKind containerName = true /\
  symbolMatches hasUnicode "method" "TestClass.method" symbolKind containerName = true /\
  (forall query symbolName : string,
     Contains query "::" = true \/ Contains query "." = true ->
     (symbolMatches hasUnicode query symbolName symbolKind containerName = true
      <-> symbolName = query)) /\
  symbolMatches hasUnicode "TestClass::method" "method" symbolKind containerName = false.
Proof.
  split; [reflexivity|]. split; [reflexivity|]. split; [|reflexivity].
  intros query symbolName H.
  rewrite symbolMatches_qualified.
  - apply String.eqb_eq.
  - destruct H as [H|H].
    + apply (Contains_first_byte query ":" ".:" ":"%char); [reflexivity | exact H].
    + apply (Contains_first_byte query "" ".:" "."%char); [reflexivity | exact H].
Qed.

(** Rule 1 in general: an unqualified query matches every candidate that
    ends with ["::"] or ["."] followed by the query. *)
Lemma symbolMatches_scoped_suffix (query scope : string) (symbolKind : SymbolKind)
    (containerName : string) :
  ContainsAny query ".:" = false ->
  symbolMatches hasUnicode query (scope +:+ "::" +:+ query) symbolKind containerName = true /\
  symbolMatches hasUnicode query (scope +:+ "." +:+ query) symbolKind containerName = true.
Proof.
  intros H. unfold symbolMatches. rewrite H.
  split.
  - destruct (String.eqb _ query); [reflexivity|].
    rewrite (HasSuffix_app scope ("::" +:+ query)). reflexivity.
  - destruct (String.eqb _ query); [reflexivity|].
    rewrite (HasSuffix_app scope ("." +:+ query)), orb_true_r. reflexivity.
Qed.

(** The kinds rule 3 applies to. *)
Lemma type_like_kind (symbolKind : SymbolKind) :
  symbolKind = Class \/ symbolKind = Struct \/ symbolKind = Interface \/ symbolKind = Enum ->
  (symbolKind =? Class) || (symbolKind =? Struct) ||
  (symbolKind =? Interface) || (symbolKind =? Enum) = true.
Proof. intros [->|[->|[->| ->]]]; reflexivity. Qed.

(** C8.  For a query without ['.'] and [':'] and a candidate that is a
    class, a struct, an interface or an enum, the predicate accepts the
    candidate when [strings.EqualFold] equates its name with the query, in
    particular when the two are ASCII strings equal up to letter case, and
    when the query occurs in its name. *)
Theorem symbolMatches_type_like (query symbolName : string) (symbolKind : SymbolKind)
    (containerName : string) :
  ContainsAny query ".:" = false ->
  symbolKind = Class \/ symbolKind = Struct \/ symbolKind = Interface \/ symbolKind = Enum ->
  EqualFold hasUnicode symbolName query = true \/
  ascii_fold_eq symbolName query \/
  (exists before after : string, symbolName = before +:+ query +:+ after) ->
  symbolMatches hasUnicode query symbolName symbolKind containerName = true.
Proof.
  intros Hq Hk H. unfold symbolMatches. rewrite Hq, (type_like_kind _ Hk).
  destruct (String.eqb symbolName query); [reflexivity|].
  destruct (HasSuffix symbolName ("::" +:+ query) || HasSuffix symbolName ("." +:+ query));
    [reflexivity|].
  rewrite andb_false_l, andb_false_r, !andb_true_l.
  destruct H as [H|[H|(before & after & ->)]].
  - rewrite H. reflexivity.
  - rewrite (EqualFold_ascii hasUnicode _ _ H). reflexivity.
  - rewrite Contains_app. destruct (EqualFold _ _ _); reflexivity.
Qed.

End SymbolMatchesFacts.

(** ** The key of the duplicate filter *)

Section LocationKey.

Import tools.

Lemma append_cons (x : ascii) (a b : string) : String x a +:+ b = String x (a +:+ b).
Proof. reflexivity. Qed.

Lemma append_nil (a : string) : "" +:+ a = a.
Proof. reflexivity. Qed.

Lemma append_nil_r (a : string) : a +:+ "" = a.
Proof.
  induction a as [|x a IH]; [reflexivity | rewrite append_cons, IH; reflexivity].
Qed.

Lemma append_assoc (a b c : string) : (a +:+ b) +:+ c = a +:+ b +:+ c.
Proof.
  induction a as [|x a IH].
  - rewrite !append_nil. reflexivity.
  - rewrite !append_cons, IH. reflexivity.
Qed.

Lemma no_colon_uint (d : Decimal.uint) : no_colon (NilEmpty.string_of_uint d).
Proof. induction d; simpl; auto; split; auto; discriminate. Qed.

Lemma no_colon_d (z : Z) : no_colon (fmt.d z).
Proof.
  unfold fmt.d, NilZero.string_of_int, NilZero.string_of_uint.
  destruct (Z.to_int z) as [d|d].
  - destruct d; try apply no_colon_uint. simpl. split; [discriminate | exact I].
  - split; [discriminate|].
    destruct d; try apply no_colon_uint. simpl. split; [discriminate | exact I].
Qed.

Lemma to_int_not_nil (z : Z) : Z.to_int z <> Decimal.Pos Decimal.Nil /\
                                Z.to_int z <> Decimal.Neg Decimal.Nil.
Proof.
  destruct z as [|p|p]; simpl; split; try discriminate;
    intros [= H]; exact (DecimalPos.Unsigned.to_uint_nonnil p H).
Qed.

(** [%d] prints different integers differently. *)
Lemma d_inj (x y : Z) : fmt.d x = fmt.d y -> x = y.
Proof.
  unfold fmt.d. intros H.
  apply (f_equal NilZero.int_of_string) in H.
  destruct (to_int_not_nil x) as [Hx1 Hx2]. destruct (to_int_not_nil y) as [Hy1 Hy2].
  rewrite !NilZero.isi in H by assumption. injection H as H.
  apply DecimalZ.to_int_inj, H.
Qed.

(** The text after the last colon determines the text before it. *)
Lemma split_last_colon (a a' b b' : string) :
  no_colon b -> no_colon b' ->
  a +:+ ":" +:+ b = a' +:+ ":" +:+ b' -> a = a' /\ b = b'.
Proof.
  intros Hb Hb'. revert a'.
  induction a as [|x a IH]; intros [|x' a']; repeat first [rewrite append_nil | rewrite append_cons]; intros H.
  - injection H as H. auto.
  - injection H as Hx H. subst b. exfalso.
    clear -Hb. induction a' as [|y a' IH]; repeat first [rewrite append_nil in Hb | rewrite append_cons in Hb]; simpl in Hb.
    + destruct Hb as [Hb _]. apply Hb. reflexivity.
    + apply IH, Hb.
  - injection H as Hx H. subst b'. exfalso.
    clear -Hb'. induction a as [|y a IH]; repeat first [rewrite append_nil in Hb' | rewrite append_cons in Hb']; simpl in Hb'.
    + destruct Hb' as [Hb' _]. apply Hb'. reflexivity.
    + apply IH, Hb'.
  - injection H as Hx H. subst x'. destruct (IH a' H) as [-> ->]. auto.
Qed.

(** Two locations have the same key exactly when they have the same URI,
    start line and start column. *)
Lemma locationKey_inj (l1 l2 : Location) :
  locationKey l1 = locationKey l2 <-> key3 l1 = key3 l2.
Proof.
  unfold locationKey, key3. split.
  - intros H.
    rewrite <- !(append_assoc (Location_URI _) ":" _) in H.
    rewrite <- !(append_assoc _ (fmt.d _) _) in H.
    apply split_last_colon in H as [H Hc]; try apply no_colon_d.
    rewrite !append_assoc in H.
    apply split_last_colon in H as [Hu Hl]; try apply no_colon_d.
    apply d_inj in Hc. apply d_inj in Hl. congruence.
  - intros [= -> -> ->]. reflexivity.
Qed.

End LocationKey.

(** ** Counting the entries with a given key *)

Section Counting.

Context {A K : Type} `{EqDecision K} (f : A -> K).




End Counting.

Lemma fold_left_invariant {A B : Type} (P : A -> Prop) (f : A -> B -> A) (l : list B) :
  (forall a x, P a -> P (f a x)) -> forall a, P a -> P (fold_left f l a).
Proof.
  intros Hf. induction l as [|x l IH]; simpl; intros a Ha; [exact Ha|].
  apply IH, Hf, Ha.
Qed.

(** ** The loops of [ReadDefinition] *)

Section ReadDefinitionFacts.

Import tools.

Context {St : Type}.
Variable env : Env St.
Variable client : lsp.Client St.

Lemma seen_insert (m : gmap string bool) (k k' : string) :
  seen (<[k := true]> m) k' = if decide (k = k') then true else seen m k'.
Proof.
  unfold seen. rewrite lookup_insert. destruct (decide (k = k')); reflexivity.
Qed.


Lemma with_state_invariant (vars : loop_vars St) (st : St) :
  loop_invariant vars -> loop_invariant (with_state vars st).
Proof. intros [H1 H2 H3]. split; assumption. Qed.

Lemma definition_step_invariant symbol kind container (vars : loop_vars St) defLoc :
  loop_invariant vars ->
  loop_invariant (definition_step env client symbol kind container vars defLoc).
Proof.
  intros [H1 H2 H3]. unfold definition_step. cbn [definitions seenLocations visited client_state].
  destruct (seen (seenLocations vars) (locationKey defLoc)) eqn:Hseen.
  - (* a duplicate: only [visited] grows *)
    split; cbn [definitions seenLocations visited].
    + exact H1.
    + intros e He. apply elem_of_app. left. apply H2, He.
    + intros loc Hloc. apply elem_of_app in Hloc as [Hloc|Hloc].
      * apply H3, Hloc.
      * apply list_elem_of_singleton in Hloc. subst loc. exact Hseen.
  - (* a new key *)
    assert (Hvis : forall loc, loc ∈ (visited vars ++ [defLoc])%list ->
              seen (<[locationKey defLoc := true]> (seenLocations vars))
                   (locationKey loc) = true).
    { intros loc Hloc. rewrite seen_insert.
      destruct (decide (locationKey defLoc = locationKey loc)); [reflexivity|].
      apply elem_of_app in Hloc as [Hloc|Hloc]; [apply H3, Hloc|].
      apply list_elem_of_singleton in Hloc. subst loc. congruence. }
    assert (Hdefs : forall e, e ∈ definitions vars ->
              fst e ∈ (visited vars ++ [defLoc])%list).
    { intros e He. apply elem_of_app. left. apply H2, He. }
    destruct (lsp.OpenFile client (Path env (Location_URI defLoc)) (client_state vars))
      as [[err|] st].
    + split; cbn [with_state definitions seenLocations visited]; assumption.
    + destruct (GetFullDefinition env client defLoc st) as [[[definition finalLoc] [err|]] st'].
      * split; cbn [with_state definitions seenLocations visited]; assumption.
      * split; cbn [definitions seenLocations visited].
        -- rewrite fmap_app. apply NoDup_app. split; [exact H1|]. split.
           ++ intros key Hkey Hnew. cbn in Hnew.
              apply list_elem_of_singleton in Hnew. subst key.
              apply list_elem_of_fmap in Hkey as (e & Hk & He).
              pose proof (H3 _ (H2 _ He)) as Hs. rewrite <- Hk in Hs. congruence.
           ++ cbn. apply NoDup_singleton.
        -- intros e He. apply elem_of_app in He as [He|He]; [apply Hdefs, He|].
           apply list_elem_of_singleton in He. subst e. cbn.
           apply elem_of_app. right. apply list_elem_of_singleton. reflexivity.
        -- exact Hvis.
Qed.

Lemma symbol_step_invariant symbolName (vars : loop_vars St) symbol :
  loop_invariant vars -> loop_invariant (symbol_step env client symbolName vars symbol).
Proof.
  intros H. unfold symbol_step.
  destruct (symbol_switch env symbolName symbol) as [[kind container] matches].
  destruct matches; cbn [negb]; [|exact H].
  destruct (lsp.OpenFile client _ _) as [[err|] st];
    [apply with_state_invariant, H|].
  destruct (lsp.Client_Definition client _ _) as [[defResult|err] st'];
    [|apply with_state_invariant, H].
  destruct (extractDefinitionLocations defResult) as [defLocations|err];
    [|apply with_state_invariant, H].
  apply fold_left_invariant.
  - intros a x. apply definition_step_invariant.
  - apply with_state_invariant, H.
Qed.

Lemma ReadDefinition_loop_invariant symbolName results st :
  loop_invariant (ReadDefinition_loop env client symbolName results st).
Proof.
  unfold ReadDefinition_loop. apply fold_left_invariant.
  - intros a x. apply symbol_step_invariant.
  - split; cbn.
    + apply NoDup_nil. exact I.
    + intros e He. apply elem_of_nil in He. contradiction.
    + intros loc Hloc. apply elem_of_nil in Hloc. contradiction.
Qed.

(** *** When no fetch fails *)

Section NoFailure.

Hypothesis OpenFile_ok : forall path st, fst (lsp.OpenFile client path st) = None.
Hypothesis GetFullDefinition_ok :
  forall loc st, snd (fst (GetFullDefinition env client loc st)) = None.

Lemma with_state_entries (vars : loop_vars St) (st : St) :
  seen_have_entries vars -> seen_have_entries (with_state vars st).
Proof. intros H. exact H. Qed.




End NoFailure.

(** *** Candidates that do not survive, definitions that do not resolve *)

(** A symbol the filter rejects leaves every variable as it is. *)
Lemma symbol_step_rejected symbolName (vars : loop_vars St) symbol :
  snd (symbol_switch env symbolName symbol) = false ->
  symbol_step env client symbolName vars symbol = vars.
Proof.
  intros H. unfold symbol_step.
  destruct (symbol_switch env symbolName symbol) as [[kind container] matches].
  cbn in H. subst matches. reflexivity.
Qed.

Lemma fold_symbol_step_rejected symbolName results (vars : loop_vars St) :
  (forall symbol, symbol ∈ results -> snd (symbol_switch env symbolName symbol) = false) ->
  fold_left (symbol_step env client symbolName) results vars = vars.
Proof.
  revert vars.
  induction results as [|symbol results IH]; intros vars H; simpl; [reflexivity|].
  rewrite symbol_step_rejected by (apply H; left).
  apply IH. intros s Hs. apply H. right. exact Hs.
Qed.

Lemma ReadDefinition_loop_rejected symbolName results st :
  (forall symbol, symbol ∈ results -> snd (symbol_switch env symbolName symbol) = false) ->
  ReadDefinition_loop env client symbolName results st =
  {| definitions := []; seenLocations := ∅; visited := []; client_state := st |}.
Proof. intros H. unfold ReadDefinition_loop. apply fold_symbol_step_rejected, H. Qed.

(** Entries stem from visited locations: without the latter, none. *)
Lemma no_visited_no_definitions (vars : loop_vars St) :
  loop_invariant vars -> visited vars = [] -> definitions vars = [].
Proof.
  intros H Hv. destruct (definitions vars) as [|e l] eqn:E; [reflexivity|].
  assert (He : e ∈ definitions vars) by (rewrite E; left).
  apply (inv_visited _ H) in He. rewrite Hv in He.
  apply elem_of_nil in He. contradiction.
Qed.

(** Once the symbol search has answered, [ReadDefinition] returns no error:
    the text is the "not found" line when no entry was collected and the
    concatenation of the entries otherwise. *)
Lemma ReadDefinition_result symbolName st symbolResult st1 results :
  lsp.Symbol client {| Query := symbolName |} st = (Ok symbolResult, st1) ->
  Results symbolResult = Ok results ->
  fst (ReadDefinition env client symbolName st) =
  (match definitions (ReadDefinition_loop env client symbolName results st1) with
   | [] => symbolName +:+ " not found"
   | _ :: _ =>
       Join (map snd (definitions (ReadDefinition_loop env client symbolName results st1))) ""
   end, None).
Proof.
  intros Hs Hr. unfold ReadDefinition. rewrite Hs, Hr.
  destruct (definitions (ReadDefinition_loop env client symbolName results st1));
    reflexivity.
Qed.


(** When no definition request resolves anything, the inner loop never
    runs. *)
Lemma symbol_step_unresolved symbolName (vars : loop_vars St) symbol :
  (forall params s, resolves_nothing (fst (lsp.Client_Definition client params s))) ->
  visited vars = [] ->
  visited (symbol_step env client symbolName vars symbol) = [].
Proof.
  intros Hnone Hv. unfold symbol_step.
  destruct (symbol_switch env symbolName symbol) as [[kind container] matches].
  destruct matches; cbn [negb]; [|exact Hv].
  destruct (lsp.OpenFile client _ _) as [[err|] st]; [exact Hv|].
  match goal with
  | |- context [lsp.Client_Definition client ?p ?s] =>
      pose proof (Hnone p s) as H; destruct (lsp.Client_Definition client p s) as [[r|err] st']
  end; [|exact Hv].
  cbn in H. destruct (extractDefinitionLocations r) as [l|err]; [|exact Hv].
  subst l. exact Hv.
Qed.

Lemma ReadDefinition_loop_unresolved symbolName results st :
  (forall params s, resolves_nothing (fst (lsp.Client_Definition client params s))) ->
  visited (ReadDefinition_loop env client symbolName results st) = [].
Proof.
  intros Hnone. unfold ReadDefinition_loop.
  apply (fold_left_invariant (fun vars => visited vars = [])).
  - intros a x. apply symbol_step_unresolved, Hnone.
  - reflexivity.
Qed.

(** C7.  Let the symbol search answer with [results].  [ReadDefinition]
    then returns a nil error.  When no candidate survives the filter, when
    no definition request resolves a location, when no definition location
    is visited, or when for another reason no entry is collected, the text
    returned is the query followed by " not found". *)
Theorem ReadDefinition_not_found symbolName st symbolResult st1 results :
  lsp.Symbol client {| Query := symbolName |} st = (Ok symbolResult, st1) ->
  Results symbolResult = Ok results ->
  let vars := ReadDefinition_loop env client symbolName results st1 in
  snd (fst (ReadDefinition env client symbolName st)) = None /\
  ((forall symbol, symbol ∈ results -> snd (symbol_switch env symbolName symbol) = false) \/
   (forall params s, resolves_nothing (fst (lsp.Client_Definition client params s))) \/
   visited vars = [] \/
   definitions vars = [] ->
   fst (ReadDefinition env client symbolName st) = (symbolName +:+ " not found", None)).
Proof.
  intros Hs Hr vars.
  rewrite (ReadDefinition_result _ _ _ _ _ Hs Hr). fold vars.
  split; [reflexivity|].
  intros H.
  assert (E : definitions vars = []).
  { destruct H as [H|[H|[H|H]]].
    - unfold vars. rewrite ReadDefinition_loop_rejected by exact H. reflexivity.
    - apply no_visited_no_definitions; [apply ReadDefinition_loop_invariant|].
      apply ReadDefinition_loop_unresolved, H.
    - apply no_visited_no_definitions; [|exact H].
      apply ReadDefinition_loop_invariant.
    - exact H. }
  rewrite E. reflexivity.
Qed.

End ReadDefinitionFacts.

(** ** The seam between 1-indexed arguments and 0-indexed positions *)

Section Seam.

Import tools.








End Seam.

(** ** The properties on the concrete server *)

Section Instances.

Import tools lsp Scenario.

(** The definition query is not decided by the definition wrapper alone:
    here the wrapper is set, workspace symbols are missing, and the query
    answers false. *)
Lemma definition_wrapper_alone_counterexample :
  ~ (HasDefinitionSupport (Some definition_only) = Some true <->
     wrapper_set definitionProvider_Value (DefinitionProvider definition_only)).
Proof.
  intros [_ H].
  assert (Hset : wrapper_set definitionProvider_Value (DefinitionProvider definition_only)).
  { eexists _, _. split; reflexivity. }
  specialize (H Hset). discriminate H.
Qed.

Lemma wrapper_queries_witness :
  HasReferencesSupport (Some definition_only) = Some false /\
  HasWorkspaceSymbolSupport (Some definition_only) = Some false.
Proof.
  destruct (@wrapper_queries unit unit definition_only)
    as ([_ Href] & _ & _ & _ & [_ Hws] & _).
  split.
  - apply Href. intros (w & v & Hw & Hv). injection Hw as <-. discriminate Hv.
  - apply Hws. intros (w & v & Hw & _). discriminate Hw.
Defined.

Lemma plain_queries_witness :
  HasRenameSupport (Some definition_only) = Some true /\
  HasCodeActionSupport (Some definition_only) = Some true.
Proof.
  destruct (@plain_queries unit unit definition_only)
    as (_ & _ & _ & _ & Hrename & _ & _ & Haction).
  split.
  - apply (Hrename true). reflexivity.
  - eapply Haction. reflexivity.
Defined.

Lemma symbolMatches_scope_separator_witness :
  symbolMatches (fun _ _ => false) "TestClass::method" "TestClass::method"
    Method "TestClass" = true.
Proof.
  destruct (symbolMatches_scope_separator (fun _ _ => false) Method "TestClass")
    as (_ & _ & H & _).
  apply (H "TestClass::method" "TestClass::method").
  - left. reflexivity.
  - reflexivity.
Defined.

Lemma symbolMatches_type_like_witness :
  symbolMatches (fun _ _ => false) "vector" "Vector" Class "" = true /\
  symbolMatches (fun _ _ => false) "vector" "std::vector<int>" Struct "" = true.
Proof.
  split.
  - apply symbolMatches_type_like.
    + reflexivity.
    + left. reflexivity.
    + right. left. simpl. repeat split; vm_compute; reflexivity.
  - apply symbolMatches_type_like.
    + reflexivity.
    + right. left. reflexivity.
    + right. right. exists "std::", "<int>". reflexivity.
Defined.


(** A query that no candidate matches, and a query whose candidates resolve
    to nothing: both end in "not found" without an error. *)
Lemma ReadDefinition_not_found_witness :
  fst (ReadDefinition env client "nothing" 0%nat) = ("nothing not found", None) /\
  fst (ReadDefinition env client_unresolved "method" 0%nat) = ("method not found", None).
Proof.
  split.
  - destruct (ReadDefinition_not_found env client "nothing" 0%nat
                {| Results := Ok results |} 1%nat results eq_refl eq_refl)
      as [_ H].
    apply H. left. intros symbol Hsymbol.
    repeat (apply elem_of_cons in Hsymbol as [->|Hsymbol]; [reflexivity|]).
    apply elem_of_nil in Hsymbol. contradiction.
  - destruct (ReadDefinition_not_found env client_unresolved "method" 0%nat
                {| Results := Ok results |} 1%nat results eq_refl eq_refl)
      as [_ H].
    apply H. right. left. intros params s. exact I.
Defined.


End Instances.

(** ** More facts about the string functions *)

Section MoreStringFacts.

Lemma HasPrefix_inv (s p : string) :
  HasPrefix s p = true -> exists post, s = p +:+ post.
Proof.
  revert s. induction p as [|c p IH]; intros s H.
  - exists s. reflexivity.
  - destruct s as [|x s]; [discriminate|]. cbn in H.
    apply andb_true_iff in H as [Hx H]. apply Ascii.eqb_eq in Hx. subst x.
    destruct (IH s H) as [post ->]. exists post. reflexivity.
Qed.

Lemma take_drop (n : nat) (s : string) : take n s +:+ drop n s = s.
Proof.
  revert s. induction n as [|n IH]; intros [|c s]; try reflexivity.
  cbn [take drop]. rewrite append_cons, IH. reflexivity.
Qed.

Lemma length_take (n : nat) (s : string) :
  (n <= String.length s)%nat -> String.length (take n s) = n.
Proof.
  revert s. induction n as [|n IH]; intros [|c s] H; simpl in *; try lia.
  rewrite IH by lia. reflexivity.
Qed.

Lemma drop_drop (n m : nat) (s : string) : drop n (drop m s) = drop (m + n) s.
Proof.
  revert s. induction m as [|m IH]; intros s; [reflexivity|].
  destruct s as [|c s]; simpl; [destruct n; reflexivity | apply IH].
Qed.

(** Where [Index] points, the substring starts. *)
Lemma Index_from_found (sub : string) :
  forall s i m, Index_from i s sub = m -> m <> -1 -> 0 <= i ->
  i <= m /\ (Z.to_nat (m - i) <= String.length s)%nat /\
  HasPrefix (drop (Z.to_nat (m - i)) s) sub = true.
Proof.
  induction s as [|c s IH]; intros i m H Hm Hi; cbn [Index_from] in H.
  - destruct (HasPrefix "" sub) eqn:E; [|congruence].
    subst m. rewrite Z.sub_diag. simpl. auto with lia.
  - destruct (HasPrefix (String c s) sub) eqn:E.
    + subst m. rewrite Z.sub_diag. simpl drop. split; [lia|]. split; [simpl; lia | exact E].
    + destruct (IH (i + 1) m H Hm ltac:(lia)) as (H1 & H2 & H3).
      replace (Z.to_nat (m - i)) with (S (Z.to_nat (m - (i + 1)))) by lia.
      split; [lia|]. split; [simpl; lia | exact H3].
Qed.

(** [strings.Contains] holds exactly of the strings that have [sub] between
    a prefix and a suffix. *)
Lemma Contains_iff (s sub : string) :
  Contains s sub = true <-> exists pre post, s = pre +:+ sub +:+ post.
Proof.
  split.
  - unfold Contains, Index. intros H. apply Z.leb_le in H.
    destruct (Index_from_found sub s 0 _ eq_refl ltac:(lia) ltac:(lia)) as (_ & _ & Hp).
    apply HasPrefix_inv in Hp as [post Hp].
    exists (take (Z.to_nat (Index_from 0 s sub - 0)) s), post.
    rewrite <- Hp. symmetry. apply take_drop.
  - intros (pre & post & ->). apply Contains_app.
Qed.

(** [strings.HasSuffix] holds exactly of the strings that end with [suffix]. *)
Lemma HasSuffix_iff (s suffix : string) :
  HasSuffix s suffix = true <-> exists pre, s = pre +:+ suffix.
Proof.
  split.
  - unfold HasSuffix. intros H. apply andb_true_iff in H as [_ H].
    apply String.eqb_eq in H.
    exists (take (String.length s - String.length suffix) s).
    rewrite <- H at 2. symmetry. apply take_drop.
  - intros [pre ->]. apply HasSuffix_app.
Qed.

Lemma Contains_self (s : string) : Contains s s = true.
Proof.
  apply Contains_iff. exists "", "". rewrite append_nil, append_nil_r. reflexivity.
Qed.

(** A string that contains [a +:+ b] contains [a]. *)
Lemma Contains_prefix (s a b : string) :
  Contains s (a +:+ b) = true -> Contains s a = true.
Proof.
  rewrite !Contains_iff. intros (pre & post & ->).
  exists pre, (b +:+ post). rewrite append_assoc. reflexivity.
Qed.

(** A string that ends with [a +:+ b] contains [b]. *)
Lemma HasSuffix_Contains (s a b : string) :
  HasSuffix s (a +:+ b) = true -> Contains s b = true.
Proof.
  rewrite HasSuffix_iff, Contains_iff. intros [pre ->].
  exists (pre +:+ a), "". rewrite append_nil_r, append_assoc. reflexivity.
Qed.

End MoreStringFacts.

(** ** [strings.Split] and the rules of [symbolMatches] that never fire *)

Section SplitFacts.

Lemma Index_cut (s sep : string) :
  0 <= Index s sep ->
  s = take (Z.to_nat (Index s sep)) s +:+ sep +:+
      drop (Z.to_nat (Index s sep) + String.length sep) s.
Proof.
  intros H. unfold Index in *.
  destruct (Index_from_found sep s 0 _ eq_refl ltac:(lia) ltac:(lia)) as (_ & _ & Hp).
  rewrite Z.sub_0_r in Hp.
  apply HasPrefix_inv in Hp as [post Hp].
  rewrite <- drop_drop, Hp, drop_append, <- Hp. symmetry. apply take_drop.
Qed.

Lemma Split_fuel_singleton (fuel : nat) (s sep x : string) :
  Split_fuel fuel s sep = [x] -> x = s.
Proof.
  destruct fuel as [|fuel]; simpl.
  - intros [= <-]. reflexivity.
  - destruct (Index s sep <? 0); [intros [= <-]; reflexivity|].
    intros H. exfalso. injection H as _ H.
    destruct fuel; simpl in H; [discriminate|].
    destruct (Index _ sep <? 0); discriminate.
Qed.

(** With more than one part, the string ends with the separator followed by
    the last part. *)
Lemma Split_fuel_last (sep : string) :
  forall fuel s,
  (1 < List.length (Split_fuel fuel s sep))%nat ->
  exists pre, s = pre +:+ sep +:+ List.last (Split_fuel fuel s sep) "".
Proof.
  induction fuel as [|fuel IH]; intros s H; simpl in H |- *; [lia|].
  destruct (Z.ltb_spec (Index s sep) 0) as [Hm|Hm]; simpl in H; [lia|].
  pose proof (Index_cut s sep Hm) as Hs.
  set (rest := drop (Z.to_nat (Index s sep) + String.length sep) s) in *.
  destruct (Split_fuel fuel rest sep) as [|x [|y l]] eqn:E.
  - exists (take (Z.to_nat (Index s sep)) s).
    destruct fuel; simpl in E; [discriminate|].
    destruct (Index rest sep <? 0); discriminate.
  - apply Split_fuel_singleton in E. subst x.
    exists (take (Z.to_nat (Index s sep)) s). exact Hs.
  - destruct (IH rest) as [pre Hpre]; [rewrite E; simpl; lia|].
    rewrite E in Hpre.
    exists (take (Z.to_nat (Index s sep)) s +:+ sep +:+ pre).
    change (List.last (take (Z.to_nat (Index s sep)) s :: x :: y :: l) "")
      with (List.last (x :: y :: l) "").
    rewrite !append_assoc, <- Hpre. exact Hs.
Qed.

End SplitFacts.

Section SymbolMatchesRules.

Import tools.

Variable hasUnicode : string -> string -> bool.

(** The rules of [symbolMatches] that can fire, as one boolean. *)
Lemma symbolMatches_unfold (query symbolName : string) (symbolKind : SymbolKind)
    (containerName : string) :
  symbolMatches hasUnicode query symbolName symbolKind containerName =
    String.eqb symbolName query ||
    (negb (ContainsAny query ".:") &&
     (HasSuffix symbolName ("::" +:+ query) || HasSuffix symbolName ("." +:+ query) ||
      (type_likeb symbolKind &&
       (EqualFold hasUnicode symbolName query || Contains symbolName query)))).
Proof.
  unfold symbolMatches, type_likeb.
  destruct (String.eqb symbolName query); [reflexivity|].
  destruct (ContainsAny query ".:"); [reflexivity|].
  destruct (HasSuffix symbolName ("::" +:+ query)) eqn:Hsuffix; [reflexivity|].
  destruct (HasSuffix symbolName ("." +:+ query)); [reflexivity|].
  assert (Hparts : (1 <? Z.of_nat (List.length (Split symbolName "::"))) &&
                   String.eqb (List.last (Split symbolName "::") "") query = false).
  { apply not_true_is_false. intros H.
    apply andb_true_iff in H as [Hparts Hlast].
    apply Z.ltb_lt in Hparts. apply String.eqb_eq in Hlast.
    destruct (Split_fuel_last "::" (S (String.length symbolName)) symbolName)
      as [pre Hpre]; [unfold Split in Hparts; lia|].
    unfold Split in Hlast. rewrite Hlast in Hpre.
    rewrite Hpre, HasSuffix_app in Hsuffix. discriminate. }
  rewrite Hparts, !andb_false_r. simpl.
  destruct ((symbolKind =? Class) || (symbolKind =? Struct) ||
            (symbolKind =? Interface) || (symbolKind =? Enum));
    destruct (EqualFold hasUnicode symbolName query);
    destruct (Contains symbolName query); reflexivity.
Qed.


(** X1.  [symbolMatches] is decided by three rules only: equality; for a
    query without ['.'] and [':'], a name that ends with ["::"] or ["."]
    followed by the query; and, for classes, structs, interfaces and enums,
    [EqualFold] or containment.  The rule for methods and functions with a
    container and the rule for variables and constants never add a match:
    the container name plays no role, and all kinds other than the four
    type-like ones are treated alike. *)
Theorem symbolMatches_rules (query symbolName : string) (symbolKind : SymbolKind)
    (containerName : string) :
  symbolMatches hasUnicode query symbolName symbolKind containerName =
    String.eqb symbolName query ||
    (negb (ContainsAny query ".:") &&
     (HasSuffix symbolName ("::" +:+ query) || HasSuffix symbolName ("." +:+ query) ||
      (type_likeb symbolKind &&
       (EqualFold hasUnicode symbolName query || Contains symbolName query)))) /\
  (forall containerName',
     symbolMatches hasUnicode query symbolName symbolKind containerName' =
     symbolMatches hasUnicode query symbolName symbolKind containerName) /\
  (forall symbolKind',
     type_likeb symbolKind = false -> type_likeb symbolKind' = false ->
     symbolMatches hasUnicode query symbolName symbolKind' containerName =
     symbolMatches hasUnicode query symbolName symbolKind containerName).
Proof.
  split; [apply symbolMatches_unfold|]. split.
  - intros containerName'. rewrite !symbolMatches_unfold. reflexivity.
  - intros symbolKind' Hk Hk'. rewrite !symbolMatches_unfold, Hk, Hk'. reflexivity.
Qed.

(** X2.  A candidate that [symbolMatches] accepts has the query inside its
    name, or is equated with the query by [EqualFold]; a candidate of a kind
    that is not type-like is accepted only if its name is the query or ends
    with ["::"] or ["."] followed by the query. *)
Theorem symbolMatches_sound (query symbolName : string) (symbolKind : SymbolKind)
    (containerName : string) :
  symbolMatches hasUnicode query symbolName symbolKind containerName = true ->
  (Contains symbolName query = true \/
   EqualFold hasUnicode symbolName query = true) /\
  (type_likeb symbolKind = false ->
   symbolName = query \/
   (exists scope, symbolName = scope +:+ "::" +:+ query) \/
   (exists scope, symbolName = scope +:+ "." +:+ query)).
Proof.
  rewrite symbolMatches_unfold. intros H.
  apply orb_true_iff in H as [H|H].
  - apply String.eqb_eq in H. subst symbolName.
    split; [left; apply Contains_self | auto].
  - apply andb_true_iff in H as [_ H].
    apply orb_true_iff in H as [H|H]; [apply orb_true_iff in H as [H|H]|].
    + split; [left; exact (HasSuffix_Contains _ _ _ H)|].
      intros _. right. left. apply HasSuffix_iff, H.
    + split; [left; exact (HasSuffix_Contains _ _ _ H)|].
      intros _. right. right. apply HasSuffix_iff, H.
    + apply andb_true_iff in H as [Hk H]. split.
      * apply orb_true_iff in H as [H|H]; auto.
      * intros Hk'. congruence.
Qed.

End SymbolMatchesRules.

(** ** More on the definition tool *)

Section DefinitionExtras.

Import tools.

(** X3.  The key of the duplicate filter separates exactly the locations
    that differ in URI, start line or start column: no two such locations
    share a key, whatever characters the URI contains, and the end of the
    range plays no role. *)
Theorem locationKey_distinguishes (l1 l2 : Location) :
  locationKey l1 = locationKey l2 <->
  Location_URI l1 = Location_URI l2 /\
  Line (Start (Location_Range l1)) = Line (Start (Location_Range l2)) /\
  Character (Start (Location_Range l1)) = Character (Start (Location_Range l2)).
Proof.
  rewrite locationKey_inj. unfold key3. split.
  - intros [= H1 H2 H3]. auto.
  - intros (H1 & H2 & H3). congruence.
Qed.

Lemma fold_links (links : list DefinitionLink) (acc : list Location) :
  fold_left
    (fun locations link =>
       (locations ++ [ {| Location_URI := TargetURI link;
                          Location_Range := TargetRange link |} ])%list)
    links acc
  = (acc ++ List.map (fun link => {| Location_URI := TargetURI link;
                                     Location_Range := TargetRange link |}) links)%list.
Proof.
  revert acc. induction links as [|link links IH]; intros acc; simpl.
  - rewrite app_nil_r. reflexivity.
  - rewrite IH, <- app_assoc. reflexivity.
Qed.

(** X4.  [extractDefinitionLocations] turns each of the three shapes of a
    definition answer into a list of locations: a single location into the
    list of it, a list into itself, and a list of links into their target
    URI and target range, one location per link and in the order of the
    links.  It fails exactly on a nil value and on a value of another
    type. *)
Theorem extractDefinitionLocations_shapes (defResult : Or_Result_textDocument_definition) :
  match extractDefinitionLocations defResult with
  | Ok locations =>
      (exists def, definition_result_Value defResult =
                     Some (Value_Definition {| Definition_Value := Value_Location def |})
                   /\ locations = [def]) \/
      (definition_result_Value defResult =
         Some (Value_Definition {| Definition_Value := Value_Locations locations |})) \/
      (exists links, definition_result_Value defResult = Some (Value_DefinitionLinks links)
                     /\ List.length locations = List.length links
                     /\ locations =
                        List.map (fun link => {| Location_URI := TargetURI link;
                                                 Location_Range := TargetRange link |})
                          links)
  | Err _ =>
      definition_result_Value defResult = None \/
      (exists T, definition_result_Value defResult =
                   Some (Value_Definition {| Definition_Value := Value_unexpected T |})) \/
      (exists T, definition_result_Value defResult = Some (Value_other T))
  end.
Proof.
  unfold extractDefinitionLocations.
  destruct (definition_result_Value defResult) as [[[[def|defs|T]]|links|T]|]; simpl.
  - left. eauto.
  - right. left. reflexivity.
  - right. left. eauto.
  - right. right. exists links. rewrite fold_links, app_nil_l.
    split; [reflexivity|]. split; [rewrite length_map; reflexivity | reflexivity].
  - right. right. eauto.
  - left. reflexivity.
Qed.

End DefinitionExtras.

(** ** Code actions *)

Section CodeActionExtras.

Import tools.

Lemma not_Contains_longer (s a b : string) :
  Contains s a = false -> Contains s (a +:+ b) = false.
Proof.
  intros H. destruct (Contains s (a +:+ b)) eqn:E; [|reflexivity].
  apply Contains_prefix in E. congruence.
Qed.

(** X5.  [formatCodeActionKind] sorts a kind by the first of "quickfix",
    "refactor" and "source" that occurs in it, in that order of precedence:
    any kind mentioning "quickfix" is a QuickFix, a kind mentioning
    "refactor" but not "quickfix" is one of the four Refactor labels, a kind
    mentioning only "source" is one of the three Source labels, and a kind
    mentioning none of them is shown unchanged.  Formatting a label again
    does not change it. *)
Theorem formatCodeActionKind_classes (kind : string) :
  (Contains kind "quickfix" = true -> formatCodeActionKind kind = "QuickFix") /\
  (Contains kind "quickfix" = false -> Contains kind "refactor" = true ->
   In (formatCodeActionKind kind)
      ["Refactor.Extract"; "Refactor.Inline"; "Refactor.Rewrite"; "Refactor"]) /\
  (Contains kind "quickfix" = false -> Contains kind "refactor" = false ->
   Contains kind "source" = true ->
   In (formatCodeActionKind kind)
      ["Source.OrganizeImports"; "Source.FixAll"; "Source"]) /\
  (Contains kind "quickfix" = false -> Contains kind "refactor" = false ->
   Contains kind "source" = false ->
   formatCodeActionKind kind = kind) /\
  formatCodeActionKind (formatCodeActionKind kind) = formatCodeActionKind kind.
Proof.
  assert (Hr : Contains kind "refactor" = false ->
               Contains kind "refactor.extract" = false /\
               Contains kind "refactor.inline" = false /\
               Contains kind "refactor.rewrite" = false).
  { intros H. repeat split.
    - apply (not_Contains_longer kind "refactor" ".extract" H).
    - apply (not_Contains_longer kind "refactor" ".inline" H).
    - apply (not_Contains_longer kind "refactor" ".rewrite" H). }
  assert (Hs : Contains kind "source" = false ->
               Contains kind "source.organizeImports" = false /\
               Contains kind "source.fixAll" = false).
  { intros H. split.
    - apply (not_Contains_longer kind "source" ".organizeImports" H).
    - apply (not_Contains_longer kind "source" ".fixAll" H). }
  unfold formatCodeActionKind at 1 2 3 4.
  split; [intros ->; reflexivity|].
  split.
  { intros -> H. rewrite H.
    destruct (Contains kind "refactor.extract"); [simpl; auto|].
    destruct (Contains kind "refactor.inline"); [simpl; auto|].
    destruct (Contains kind "refactor.rewrite"); simpl; auto. }
  split.
  { intros -> H H'. destruct (Hr H) as (-> & -> & ->). rewrite H, H'.
    destruct (Contains kind "source.organizeImports"); [simpl; auto|].
    destruct (Contains kind "source.fixAll"); simpl; auto. }
  split.
  { intros -> H H'. destruct (Hr H) as (-> & -> & ->). destruct (Hs H') as (-> & ->).
    rewrite H, H'. reflexivity. }
  unfold formatCodeActionKind at 2 3.
  destruct (Contains kind "quickfix") eqn:E1; [reflexivity|].
  destruct (Contains kind "refactor.extract") eqn:E2; [reflexivity|].
  destruct (Contains kind "refactor.inline") eqn:E3; [reflexivity|].
  destruct (Contains kind "refactor.rewrite") eqn:E4; [reflexivity|].
  destruct (Contains kind "refactor") eqn:E5; [reflexivity|].
  destruct (Contains kind "source.organizeImports") eqn:E6; [reflexivity|].
  destruct (Contains kind "source.fixAll") eqn:E7; [reflexivity|].
  destruct (Contains kind "source") eqn:E8; [reflexivity|].
  unfold formatCodeActionKind. rewrite E1, E2, E3, E4, E5, E6, E7, E8. reflexivity.
Qed.

(** Actions with a nil [Value] leave the text as it is. *)
Lemma range_loop_all_nil (n : Z) (actions : list Or_Result_textDocument_codeAction_Item0_Elem) :
  Forall (fun a => codeAction_Value a = None) actions ->
  forall i result, range_loop (code_action_entry n) i actions result = result.
Proof.
  induction 1 as [|a actions Ha _ IH]; intros i result; simpl; [reflexivity|].
  rewrite IH. unfold code_action_entry. rewrite Ha. reflexivity.
Qed.

(** The loop only appends to the text. *)
Lemma code_action_entry_appends (n : Z) (result : string) (i : Z)
    (a : Or_Result_textDocument_codeAction_Item0_Elem) :
  code_action_entry n result i a = result +:+ code_action_entry n "" i a.
Proof.
  unfold code_action_entry.
  destruct (codeAction_Value a) as [[b|s|l|v|T]|];
    try (destruct (i <? int_sub n 1); rewrite ?append_assoc, ?append_nil, ?append_nil_r;
         reflexivity).
  destruct (map_index v "command") as [[b|s|l|cmdMap|T]|];
    try destruct (map_index cmdMap "command") as [[b'|s'|l'|v'|T']|];
    destruct (i <? int_sub n 1); rewrite ?append_assoc, ?append_nil; reflexivity.
Qed.

Lemma range_loop_appends (n : Z) (actions : list Or_Result_textDocument_codeAction_Item0_Elem) :
  forall i result,
  range_loop (code_action_entry n) i actions result =
  result +:+ range_loop (code_action_entry n) i actions "".
Proof.
  induction actions as [|a actions IH]; intros i result; simpl.
  - rewrite append_nil_r. reflexivity.
  - rewrite IH, (IH _ (code_action_entry n "" i a)), code_action_entry_appends.
    rewrite append_assoc. reflexivity.
Qed.

Context {St : Type}.
Variable client : lsp.Client St.

(** X6.  Once the file is open and the server has answered,
    [GetCodeActions] returns no error: the fixed text "No code actions
    available" for an empty answer and the header with the number of
    actions otherwise.  An action whose value is nil is counted in the
    header but gets no line: when all values are nil the text is the header
    alone. *)
Theorem GetCodeActions_answer (filePath : string)
    (startLine startColumn endLine endColumn : Z) (st st1 st2 st3 : St)
    (diagnostics : list (lsp.Diagnostic client))
    (actions : list Or_Result_textDocument_codeAction_Item0_Elem) :
  lsp.OpenFile client filePath st = (None, st1) ->
  lsp.GetFileDiagnostics client ("file://" +:+ filePath) st1 = (diagnostics, st2) ->
  lsp.CodeAction client
    {| CodeActionParams_TextDocument :=
         {| TextDocumentIdentifier_URI := "file://" +:+ filePath |};
       CodeActionParams_Range :=
         GetCodeActions_actionRange startLine startColumn endLine endColumn;
       Context_ := {| Diagnostics := diagnostics |} |} st2 = (Ok actions, st3) ->
  let header :=
    "Code Actions (" +:+ fmt.d (Z.of_nat (List.length actions)) +:+ " available):" +:+
    fmt.nl +:+ fmt.nl in
  let out := GetCodeActions client filePath startLine startColumn endLine endColumn st in
  snd (fst out) = None /\
  snd out = st3 /\
  (actions = [] -> fst (fst out) = "No code actions available") /\
  (actions <> [] -> exists body, fst (fst out) = header +:+ body) /\
  (actions <> [] -> Forall (fun a => codeAction_Value a = None) actions ->
   fst (fst out) = header).
Proof.
  intros Ho Hd Ha header out. unfold out, GetCodeActions.
  rewrite Ho, Hd, Ha.
  destruct actions as [|a actions]; [repeat split; try reflexivity; congruence|].
  replace (Z.of_nat (List.length (a :: actions)) =? 0) with false
    by (symmetry; apply Z.eqb_neq; simpl; lia).
  cbn [fst snd].
  repeat split.
  - congruence.
  - intros _. eexists. apply range_loop_appends.
  - intros _ Hnil. fold header. apply range_loop_all_nil, Hnil.
Qed.

End CodeActionExtras.

(** ** The order of the calls on the client *)

Section CallOrder.

Import tools Recording.

Context {Diagnostic : Type}.
Variable server : Server Diagnostic.

Abbreviation log_t := (list (call Diagnostic)).

Lemma after_open_app (path_of : DocumentUri -> string) (log more : log_t) :
  definitions_after_open path_of log ->
  Forall (fun c => ~ is_Definition_call c) more ->
  definitions_after_open path_of (log ++ more).
Proof.
  intros Hlog Hmore i params Hi.
  destruct (decide (i < List.length log)%nat) as [Hlt|Hge].
  - rewrite lookup_app_l in Hi by exact Hlt.
    destruct (Hlog i params Hi) as (j & -> & Hj).
    exists j. split; [reflexivity|].
    rewrite lookup_app_l by lia. exact Hj.
  - rewrite lookup_app_r in Hi by lia.
    apply list_elem_of_lookup_2 in Hi.
    rewrite Forall_forall in Hmore. exfalso.
    apply (Hmore (Definition_call params)); [exact Hi | exact I].
Qed.

Lemma after_open_snoc (path_of : DocumentUri -> string) (log : log_t) (c : call Diagnostic) :
  definitions_after_open path_of log ->
  ~ is_Definition_call c ->
  definitions_after_open path_of (log ++ [c]).
Proof.
  intros Hlog Hc. apply after_open_app; [exact Hlog|].
  constructor; [exact Hc | constructor].
Qed.

Lemma after_open_definition (path_of : DocumentUri -> string) (log : log_t)
    (params : DefinitionParams) :
  definitions_after_open path_of log ->
  definitions_after_open path_of
    ((log ++ [OpenFile_call
                (path_of (TextDocumentIdentifier_URI
                            (TextDocument
                               (DefinitionParams_TextDocumentPositionParams params))))
                true]) ++ [Definition_call params]).
Proof.
  intros Hlog i params' Hi.
  destruct (decide (i < S (List.length log))%nat) as [Hlt|Hge].
  - rewrite lookup_app_l in Hi by (rewrite length_app; simpl; lia).
    pose proof (after_open_snoc path_of log (OpenFile_call _ true) Hlog (fun H => H)
                  i params' Hi) as (j & -> & Hj).
    exists j. split; [reflexivity|].
    rewrite lookup_app_l by (rewrite length_app; simpl; lia). exact Hj.
  - rewrite lookup_app_r in Hi by (rewrite length_app; simpl; lia).
    rewrite length_app in Hi. simpl in Hi.
    destruct (i - (List.length log + 1))%nat as [|k] eqn:E; simpl in Hi; [|discriminate].
    injection Hi as <-.
    exists (List.length log). split; [lia|].
    rewrite lookup_app_l by (rewrite length_app; simpl; lia).
    rewrite lookup_app_r by lia. rewrite Nat.sub_diag. reflexivity.
Qed.

Variable env : Env log_t.

(** What is assumed of the helper [GetFullDefinition]: it may call the
    client, but sends no definition request. *)
Hypothesis GetFullDefinition_calls :
  forall (c : lsp.Client log_t) (loc : Location) (log : log_t),
  exists more : log_t,
    snd (GetFullDefinition env c loc log) = (log ++ more)%list /\
    Forall (fun c => ~ is_Definition_call c) more.

Lemma definition_step_after_open symbol kind container (vars : loop_vars log_t) defLoc :
  definitions_after_open (Path env) (client_state vars) ->
  definitions_after_open (Path env)
    (client_state (definition_step env (client server) symbol kind container vars defLoc)).
Proof.
  intros H. unfold definition_step. cbn [seenLocations client_state].
  destruct (seen (seenLocations vars) (locationKey defLoc)); [exact H|].
  cbn [lsp.OpenFile client client_state].
  assert (Ho : definitions_after_open (Path env)
                 (client_state vars ++
                  [OpenFile_call (Path env (Location_URI defLoc))
                     (is_nil (on_OpenFile server (client_state vars)
                                (Path env (Location_URI defLoc))))])).
  { apply after_open_snoc; [exact H | exact (fun F => F)]. }
  destruct (on_OpenFile server (client_state vars) (Path env (Location_URI defLoc)));
    [exact Ho|].
  destruct (GetFullDefinition_calls (client server) defLoc
              (client_state vars ++ [OpenFile_call (Path env (Location_URI defLoc)) (is_nil None)]))
    as (more & Hmore & Hnone).
  destruct (GetFullDefinition env (client server) defLoc _) as [[[definition finalLoc] err] st].
  cbn [snd] in Hmore. subst st.
  destruct err; cbn [with_state client_state]; apply after_open_app; assumption.
Qed.

Lemma symbol_step_after_open symbolName (vars : loop_vars log_t) symbol :
  definitions_after_open (Path env) (client_state vars) ->
  definitions_after_open (Path env)
    (client_state (symbol_step env (client server) symbolName vars symbol)).
Proof.
  intros H. unfold symbol_step.
  destruct (symbol_switch env symbolName symbol) as [[kind container] matches].
  destruct matches; cbn [negb]; [|exact H].
  cbn [lsp.OpenFile lsp.Client_Definition client].
  destruct (on_OpenFile server (client_state vars) (Path env (Location_URI (GetLocation symbol))))
    eqn:Hopen; cbn [with_state client_state].
  - apply after_open_snoc; [exact H | exact (fun F => F)].
  - cbn [is_nil].
    match goal with
    | |- context [on_Definition server ?l ?p] =>
        assert (Hd : definitions_after_open (Path env) (l ++ [Definition_call p]));
        [exact (after_open_definition (Path env) (client_state vars) p H)|];
        destruct (on_Definition server l p) as [defResult|err]
    end; cbn [with_state client_state]; [|exact Hd].
    destruct (extractDefinitionLocations defResult) as [defLocations|err];
      cbn [with_state client_state]; [|exact Hd].
    apply (fold_left_invariant
             (fun vars => definitions_after_open (Path env) (client_state vars))).
    + intros a x. apply definition_step_after_open.
    + exact Hd.
Qed.

(** X7.  [ReadDefinition] sends a definition request for a file only
    immediately after [OpenFile] has succeeded on the path of that file:
    in the calls it makes on the client, every definition request is
    preceded directly by the successful [OpenFile] of its document. *)
Theorem ReadDefinition_opens_before_definition (symbolName : string) (log : log_t) :
  definitions_after_open (Path env) log ->
  definitions_after_open (Path env)
    (snd (ReadDefinition env (client server) symbolName log)).
Proof.
  intros H. unfold ReadDefinition. cbn [lsp.Symbol client].
  assert (Hs : definitions_after_open (Path env)
                 (log ++ [Symbol_call {| Query := symbolName |}])).
  { apply after_open_snoc; [exact H | exact (fun F => F)]. }
  destruct (on_Symbol server log {| Query := symbolName |}) as [symbolResult|err];
    [|exact Hs].
  destruct (Results symbolResult) as [results|err]; [|exact Hs].
  assert (Hloop : definitions_after_open (Path env)
            (client_state (ReadDefinition_loop env (client server) symbolName results
                             (log ++ [Symbol_call {| Query := symbolName |}])%list))).
  { unfold ReadDefinition_loop.
    apply (fold_left_invariant
             (fun vars => definitions_after_open (Path env) (client_state vars))).
    - intros a x. apply symbol_step_after_open.
    - exact Hs. }
  destruct (Z.of_nat _ =? 0); exact Hloop.
Qed.

End CallOrder.

Section ToolCalls.

Import tools Recording.

Context {Diagnostic : Type}.
Variable server : Server Diagnostic.

(** X8.  [GetCallHierarchy] calls the client at most three times, in a
    fixed order, and stops at the first failure: nothing for a direction
    other than "incoming" and "outgoing"; [OpenFile] of the file; then the
    prepare request at the 0-indexed position; then, for the first item of
    the answer only, the incoming or the outgoing request according to the
    direction.  It returns an error exactly when the direction is invalid or
    the last call it made failed. *)
Theorem GetCallHierarchy_calls (filePath : string) (line column : Z) (direction : string) :
  let out := GetCallHierarchy (client server) filePath line column direction [] in
  let params := GetCallHierarchy_params filePath line column in
  let opened := [OpenFile_call (Diagnostic := Diagnostic) filePath true] in
  let prepared := (opened ++ [PrepareCallHierarchy_call params])%list in
  (direction <> "incoming" /\ direction <> "outgoing" /\
   snd out = [] /\ snd (fst out) <> None) \/
  ((direction = "incoming" \/ direction = "outgoing") /\
   ((snd out = [OpenFile_call filePath false] /\ snd (fst out) <> None) \/
    (snd out = prepared /\
     ((exists err, on_PrepareCallHierarchy server opened params = Err err) /\
      snd (fst out) <> None \/
      on_PrepareCallHierarchy server opened params = Ok [] /\ snd (fst out) = None)) \/
    (exists item rest,
       on_PrepareCallHierarchy server opened params = Ok (item :: rest) /\
       (direction = "incoming" /\
        snd out =
          (prepared ++
           [IncomingCalls_call {| CallHierarchyIncomingCallsParams_Item := item |}])%list /\
        (snd (fst out) = None <->
         exists calls,
           on_IncomingCalls server prepared
             {| CallHierarchyIncomingCallsParams_Item := item |} = Ok calls) \/
        direction = "outgoing" /\
        snd out =
          (prepared ++
           [OutgoingCalls_call {| CallHierarchyOutgoingCallsParams_Item := item |}])%list /\
        (snd (fst out) = None <->
         exists calls,
           on_OutgoingCalls server prepared
             {| CallHierarchyOutgoingCallsParams_Item := item |} = Ok calls))))).
Proof.
  intros out params opened prepared. unfold out, GetCallHierarchy.
  destruct (String.eqb_spec direction "incoming") as [Hin|Hin];
    destruct (String.eqb_spec direction "outgoing") as [Hout|Hout];
    cbn [negb andb]; try (subst; discriminate).
  3: { left. repeat split; try assumption. discriminate. }
  all: right; split; [auto|].
  all: cbn [lsp.OpenFile lsp.PrepareCallHierarchy lsp.IncomingCalls lsp.OutgoingCalls
              client app].
  all: destruct (on_OpenFile server [] filePath) as [err|];
    [left; split; [reflexivity | discriminate]|]; right.
  all: cbn [is_nil]; fold opened; fold params.
  all: destruct (on_PrepareCallHierarchy server opened params) as [[|item rest]|err] eqn:Hp.
  all: try (left; split; [reflexivity|]; right; split; [reflexivity|reflexivity]).
  all: try (left; split; [reflexivity|]; left; split; [eauto|discriminate]).
  - right. exists item, rest. split; [reflexivity|]. left.
    split; [exact Hin|].
    change ([OpenFile_call filePath true; PrepareCallHierarchy_call params])
      with prepared.
    destruct (on_IncomingCalls server prepared _) as [calls|err];
      (split; [reflexivity|]); split; eauto; try discriminate.
    intros [calls H]. discriminate.
  - right. exists item, rest. split; [reflexivity|]. right.
    split; [exact Hout|].
    change ([OpenFile_call filePath true; PrepareCallHierarchy_call params])
      with prepared.
    destruct (on_OutgoingCalls server prepared _) as [calls|err];
      (split; [reflexivity|]); split; eauto; try discriminate.
    intros [calls H]. discriminate.
Qed.

(** X9.  [GetCodeActions] opens the file first and, when that fails, calls
    nothing else; otherwise it reads the diagnostics of the file and sends
    one code action request for the 0-indexed range, carrying exactly those
    diagnostics.  It returns an error exactly when [OpenFile] or the request
    failed. *)
Theorem GetCodeActions_calls (filePath : string)
    (startLine startColumn endLine endColumn : Z) :
  let out :=
    GetCodeActions (client server) filePath startLine startColumn endLine endColumn [] in
  let uri := "file://" +:+ filePath in
  let opened := [OpenFile_call (Diagnostic := Diagnostic) filePath true] in
  let read := (opened ++ [GetFileDiagnostics_call uri])%list in
  let params :=
    {| CodeActionParams_TextDocument := {| TextDocumentIdentifier_URI := uri |};
       CodeActionParams_Range :=
         GetCodeActions_actionRange startLine startColumn endLine endColumn;
       Context_ := {| Diagnostics := on_GetFileDiagnostics server opened uri |} |} in
  (snd out = [OpenFile_call filePath false] /\ snd (fst out) <> None) \/
  (snd out = (read ++ [CodeAction_call params])%list /\
   (snd (fst out) = None <-> exists actions, on_CodeAction server read params = Ok actions)).
Proof.
  intros out uri opened read params.
  subst out uri opened read params. unfold GetCodeActions.
  cbn [lsp.OpenFile lsp.GetFileDiagnostics lsp.CodeAction client app].
  destruct (on_OpenFile server [] filePath) as [err|];
    [left; split; [reflexivity | discriminate]|].
  right. cbn [is_nil].
  destruct (on_CodeAction server _ _) as [actions|err].
  - destruct (Z.of_nat (List.length actions) =? 0);
      (split; [reflexivity|]); split; eauto.
  - split; [reflexivity|]. split; [discriminate|]. intros [actions H]. discriminate.
Qed.

End ToolCalls.

(** ** The document-symbol outline *)

Section OutlineExtras.

Import tools.

Variable TableKindMap : SymbolKind -> string.

Lemma concat_strings_app (l1 l2 : list string) :
  concat_strings (l1 ++ l2) = concat_strings l1 +:+ concat_strings l2.
Proof.
  induction l1 as [|x l1 IH]; simpl.
  - rewrite append_nil. reflexivity.
  - unfold concat_strings in *. simpl. rewrite IH, append_assoc. reflexivity.
Qed.

Lemma concat_strings_cons (x : string) (l : list string) :
  concat_strings (x :: l) = x +:+ concat_strings l.
Proof. reflexivity. Qed.

Lemma fold_format_children (depth : Z) (Children : list DocumentSymbol) :
  (forall child output,
     In child Children ->
     formatDocumentSymbol TableKindMap output child depth =
     output +:+ concat_strings (List.map (outline_line TableKindMap) (outline child depth))) ->
  forall start,
  fold_left (fun output child => formatDocumentSymbol TableKindMap output child depth)
    Children start =
  start +:+
  concat_strings
    (List.map (outline_line TableKindMap)
       (List.flat_map (fun child => outline child depth) Children)).
Proof.
  induction Children as [|child Children IHc]; intros H start.
  - simpl. unfold concat_strings. simpl. rewrite append_nil_r. reflexivity.
  - cbn [fold_left List.flat_map].
    rewrite IHc by (intros c o Hc; apply H; right; exact Hc).
    rewrite (H child) by (left; reflexivity).
    rewrite List.map_app, concat_strings_app, append_assoc. reflexivity.
Qed.

Lemma formatDocumentSymbol_outline_aux :
  forall (symbol : DocumentSymbol) (output : string) (depth : Z),
  formatDocumentSymbol TableKindMap output symbol depth =
  output +:+ concat_strings (List.map (outline_line TableKindMap) (outline symbol depth)).
Proof.
  fix IH 1. intros [Name Detail Kind Range_ Children] output depth.
  cbn [formatDocumentSymbol outline List.map].
  rewrite fold_format_children.
  - rewrite concat_strings_cons, append_assoc. f_equal.
    unfold outline_line. f_equal.
    destruct (negb _); [reflexivity | rewrite append_nil_r; reflexivity].
  - clear output. revert Children.
    fix IHc 1. intros [|child Children] c output Hc.
    + destruct Hc.
    + destruct Hc as [<-|Hc].
      * apply IH.
      * apply (IHc Children c output Hc).
Qed.


End OutlineExtras.

(** ** [GetDocumentSymbols] *)

Section GetDocumentSymbolsExtras.

Import tools.

Context {St : Type}.
Variable client : lsp.Client St.
Variable client_DocumentSymbol :
  DocumentSymbolParams -> St -> result Or_Result_textDocument_documentSymbol * St.
Variable TableKindMap : SymbolKind -> string.

Lemma formatSymbolInformation_appends (output : string) (symbol : SymbolInformation) :
  formatSymbolInformation TableKindMap output symbol =
  output +:+ formatSymbolInformation TableKindMap "" symbol.
Proof. unfold formatSymbolInformation. rewrite append_nil. reflexivity. Qed.

Lemma fold_outline_text (results : list DocumentSymbolResult) :
  forall output,
  fold_left
    (fun output symbol =>
       match symbol with
       | ptr_DocumentSymbol v => formatDocumentSymbol TableKindMap output v 0
       | ptr_SymbolInformation v => formatSymbolInformation TableKindMap output v
       | DocumentSymbolResult_other _ => output
       end)
    results output
  = output +:+ concat_strings (List.map (outline_text TableKindMap) results).
Proof.
  induction results as [|symbol results IH]; intros output; cbn [fold_left List.map].
  - unfold concat_strings. simpl. rewrite append_nil_r. reflexivity.
  - rewrite IH, concat_strings_cons, <- append_assoc. f_equal.
    destruct symbol as [v|v|T]; cbn [outline_text].
    + apply formatDocumentSymbol_outline_aux.
    + apply formatSymbolInformation_appends.
    + rewrite append_nil_r. reflexivity.
Qed.

(** X11.  Once the file is open and the server has answered with a list
    that [Results()] decodes, [GetDocumentSymbols] returns no error: "No
    symbols found" for an empty list and otherwise the header followed by
    the text of each element in the order of the answer, the outline of a
    symbol tree from depth 0, the line of a flat symbol, and nothing for an
    element of another type. *)
Theorem GetDocumentSymbols_answer (filePath : string) (st st1 st2 : St)
    (symbolResult : Or_Result_textDocument_documentSymbol)
    (results : list DocumentSymbolResult) :
  lsp.OpenFile client filePath st = (None, st1) ->
  client_DocumentSymbol
    {| DocumentSymbolParams_TextDocument :=
         {| TextDocumentIdentifier_URI := "file://" +:+ filePath |} |} st1
    = (Ok symbolResult, st2) ->
  documentSymbol_Results symbolResult = Ok results ->
  GetDocumentSymbols client client_DocumentSymbol TableKindMap filePath st =
  ((match results with
    | [] => "No symbols found"
    | _ :: _ =>
        ("Document Symbols for " +:+ filePath +:+ ":" +:+ fmt.nl +:+ fmt.nl) +:+
        concat_strings (List.map (outline_text TableKindMap) results)
    end, None), st2).
Proof.
  intros Ho Hd Hr. unfold GetDocumentSymbols. rewrite Ho, Hd, Hr.
  destruct results as [|symbol results]; [reflexivity|].
  replace (Z.of_nat (List.length (symbol :: results)) =? 0) with false
    by (symmetry; apply Z.eqb_neq; simpl; lia).
  rewrite fold_outline_text. reflexivity.
Qed.

End GetDocumentSymbolsExtras.

(** ** [GetSignatureHelp] *)

Section GetSignatureHelpExtras.

Import tools.

(** A loop panics exactly when the body panics at one of its elements,
    provided that whether the body panics does not depend on the text
    written so far. *)
Lemma range_loop_panic_None {A : Type} (body : string -> Z -> A -> option string)
    (P : Z -> A -> Prop) :
  (forall result i x, body result i x = None <-> P i x) ->
  forall xs i result,
  range_loop_panic body i xs result = None <->
  exists (k : nat) (x : A), xs !! k = Some x /\ P (i + Z.of_nat k) x.
Proof.
  intros Hbody. induction xs as [|x xs IH]; intros i result; cbn [range_loop_panic].
  - split; [discriminate | intros (k & y & Hk & _); destruct k; discriminate].
  - destruct (body result i x) as [result'|] eqn:E.
    + rewrite IH. split.
      * intros (k & y & Hk & Hy). exists (S k), y. split; [exact Hk|].
        replace (i + Z.of_nat (S k)) with (i + 1 + Z.of_nat k) by lia. exact Hy.
      * intros (k & y & Hk & Hy). destruct k as [|k].
        -- injection Hk as <-. rewrite Z.add_0_r in Hy.
           apply (Hbody result) in Hy. congruence.
        -- exists k, y. split; [exact Hk|].
           replace (i + 1 + Z.of_nat k) with (i + Z.of_nat (S k)) by lia. exact Hy.
    + split; [|reflexivity]. intros _. exists 0%nat, x. split; [reflexivity|].
      rewrite Z.add_0_r. apply (Hbody result), E.
Qed.

Lemma parameter_entry_None (sigLabel : string) (activeParameterIdx : Z)
    (result : string) (j : Z) (param : ParameterInformation) :
  parameter_entry sigLabel activeParameterIdx result j param = None <->
  reversed_offsets sigLabel param.
Proof.
  unfold parameter_entry, reversed_offsets.
  destruct (ParameterInformation_Label param) as [v|start end_|].
  - split; [discriminate | intros (s & e & H & _); discriminate].
  - unfold slice.
    destruct (Z.ltb_spec start (len sigLabel)); destruct (Z.leb_spec end_ (len sigLabel));
      destruct (Z.leb_spec start end_); cbn [andb];
      (split; [try discriminate; intros _; exists start, end_; repeat split; lia
              | try reflexivity; intros (s & e & [= <- <-] & ? & ? & ?); lia]).
  - split; [discriminate | intros (s & e & H & _); discriminate].
Qed.

Lemma Exists_lookup {A : Type} (P : A -> Prop) (l : list A) :
  (exists (k : nat) (x : A), l !! k = Some x /\ P x) <-> Exists P l.
Proof.
  rewrite Exists_exists. split.
  - intros (k & x & Hk & Hx). exists x. split; [|exact Hx].
    apply list_elem_of_lookup_2 in Hk. exact Hk.
  - intros (x & Hin & Hx). apply list_elem_of_lookup_1 in Hin as [k Hk].
    eauto.
Qed.

Lemma signature_entry_None (active activeParameterIdx : Z) (result : string) (i : Z)
    (sig : SignatureInformation) :
  signature_entry active activeParameterIdx result i sig = None <->
  i = active /\ Exists (reversed_offsets (SignatureInformation_Label sig)) (Parameters sig).
Proof.
  unfold signature_entry.
  destruct (Z.eqb_spec i active) as [->|Hne].
  - destruct (Parameters sig) as [|p ps] eqn:Hps.
    + cbn. split.
      * destruct (SignatureInformation_Documentation sig) as [[v|v|]|]; discriminate.
      * intros [_ H]. inversion H.
    + replace (0 <? Z.of_nat (List.length (p :: ps))) with true
        by (symmetry; apply Z.ltb_lt; simpl; lia).
      rewrite <- Exists_lookup.
      pose proof (range_loop_panic_None
                    (parameter_entry (SignatureInformation_Label sig) activeParameterIdx)
                    (fun _ param => reversed_offsets (SignatureInformation_Label sig) param)
                    (parameter_entry_None (SignatureInformation_Label sig) activeParameterIdx)
                    (p :: ps) 0) as Hloop.
      match goal with
      | |- context [range_loop_panic _ 0 (p :: ps) ?r] =>
          specialize (Hloop r); destruct (range_loop_panic _ 0 (p :: ps) r) as [r'|]
      end.
      * split.
        -- destruct (SignatureInformation_Documentation sig) as [[v|v|]|]; discriminate.
        -- intros [_ H]. apply Hloop in H. discriminate.
      * split; [|reflexivity]. intros _. split; [reflexivity|]. apply Hloop. reflexivity.
  - split; [discriminate | intros [H _]; contradiction].
Qed.

Context {St : Type}.
Variable client : lsp.Client St.
Variable client_SignatureHelp : SignatureHelpParams -> St -> result SignatureHelp * St.
Variable ExtractTextFromLocation : Location -> string * option string.

(** X12.  [GetSignatureHelp] panics in exactly one situation: the file was
    opened, the server answered, and the signature displayed as active has
    a parameter whose label offsets lie within the signature label with the
    end before the start.  Offsets beyond the label, labels of other
    signatures and everything else leave it returning normally. *)
Theorem GetSignatureHelp_panics (filePath : string) (line column : Z) (st : St) :
  GetSignatureHelp client client_SignatureHelp ExtractTextFromLocation
    filePath line column st = None
  <->
  exists (st1 st2 : St) (help : SignatureHelp) (k : nat) (sig : SignatureInformation),
    lsp.OpenFile client filePath st = (None, st1) /\
    client_SignatureHelp (GetSignatureHelp_params filePath line column) st1
      = (Ok help, st2) /\
    Signatures help !! k = Some sig /\
    Z.of_nat k = activeSignatureIdx help /\
    Exists (reversed_offsets (SignatureInformation_Label sig)) (Parameters sig).
Proof.
  unfold GetSignatureHelp.
  destruct (lsp.OpenFile client filePath st) as [[err|] st1] eqn:Ho.
  { split; [discriminate | intros (s1 & s2 & h & k & sig & [=] & _)]. }
  destruct (client_SignatureHelp (GetSignatureHelp_params filePath line column) st1)
    as [[help|err] st2] eqn:Hh.
  2: { split; [discriminate|].
       intros (s1 & s2 & h & k & sig & [= <-] & H & _). congruence. }
  destruct (Z.eqb_spec (Z.of_nat (List.length (Signatures help))) 0) as [Hempty|Hne].
  { destruct (ExtractTextFromLocation _) as [lineText err].
    split; [discriminate|].
    intros (s1 & s2 & h & k & sig & [= <-] & H & Hk & _).
    rewrite Hh in H. injection H as <- <-.
    destruct (Signatures help); [destruct k; discriminate | simpl in Hempty; lia]. }
  pose proof (range_loop_panic_None
                (signature_entry (activeSignatureIdx help) (ActiveParameter help))
                (fun i sig =>
                   i = activeSignatureIdx help /\
                   Exists (reversed_offsets (SignatureInformation_Label sig)) (Parameters sig))
                (signature_entry_None (activeSignatureIdx help) (ActiveParameter help))
                (Signatures help) 0 ("Signature Help:" +:+ fmt.nl +:+ fmt.nl)) as Hloop.
  destruct (range_loop_panic _ 0 (Signatures help) _) as [result|].
  - split; [discriminate|].
    intros (s1 & s2 & h & k & sig & [= <-] & H & Hk & Hidx & Hrev).
    rewrite Hh in H. injection H as <- <-.
    enough (Some result = None) by discriminate.
    apply Hloop. exists k, sig. rewrite Z.add_0_l. auto.
  - split; [|reflexivity]. intros _.
    destruct Hloop as [Hloop _]. destruct (Hloop eq_refl) as (k & sig & Hk & Hidx & Hrev).
    exists st1, st2, help, k, sig. rewrite Z.add_0_l in Hidx. auto.
Qed.

End GetSignatureHelpExtras.

(** ** The documentation line of a completion item *)

Section CompletionExtras.

Import tools.

Lemma mem_byte_append (c : ascii) (s t : string) :
  mem_byte c (s +:+ t) = mem_byte c s || mem_byte c t.
Proof.
  induction s as [|x s IH]; [reflexivity|].
  rewrite append_cons. cbn [mem_byte]. rewrite IH, orb_assoc. reflexivity.
Qed.

Lemma mem_byte_take (c : ascii) (n : nat) (s : string) :
  mem_byte c s = false -> mem_byte c (take n s) = false.
Proof.
  revert s. induction n as [|n IH]; intros [|x s] H; try reflexivity.
  cbn [take mem_byte] in *. apply orb_false_iff in H as [Hx H].
  rewrite Hx, (IH s H). reflexivity.
Qed.

Lemma HasPrefix_take (n : nat) (s : string) : HasPrefix s (take n s) = true.
Proof.
  revert s. induction n as [|n IH]; intros [|x s]; try reflexivity.
  cbn [take HasPrefix]. rewrite Ascii.eqb_refl. apply IH.
Qed.

Lemma take_take (n m : nat) (s : string) : take n (take m s) = take (Nat.min n m) s.
Proof.
  revert m s. induction n as [|n IH]; intros [|m] [|x s]; try reflexivity.
  cbn [take Nat.min]. rewrite IH. reflexivity.
Qed.

(** Before the first occurrence of a byte there is no occurrence of it. *)
Lemma Index_from_byte (c : ascii) (s : string) :
  forall i, 0 <= i ->
  (Index_from i s (String c "") = -1 -> mem_byte c s = false) /\
  (Index_from i s (String c "") <> -1 ->
   mem_byte c (take (Z.to_nat (Index_from i s (String c "") - i)) s) = false).
Proof.
  induction s as [|x s IH]; intros i Hi; cbn [Index_from HasPrefix].
  - split; [reflexivity | congruence].
  - rewrite andb_true_r.
    destruct (Ascii.eqb_spec x c) as [->|Hx].
    + split; [lia|]. intros _. rewrite Z.sub_diag. reflexivity.
    + destruct (IH (i + 1) ltac:(lia)) as [H1 H2].
      assert (Hc : Ascii.eqb c x = false) by (apply Ascii.eqb_neq; congruence).
      split.
      * intros H. cbn [mem_byte]. rewrite Hc, (H1 H). reflexivity.
      * intros H. pose proof (Index_from_ge s (String c "") (i + 1)) as [E|E];
          [contradiction|].
        replace (Z.to_nat (Index_from (i + 1) s (String c "") - i))
          with (S (Z.to_nat (Index_from (i + 1) s (String c "") - (i + 1)))) by lia.
        cbn [take mem_byte]. rewrite Hc, (H2 H). reflexivity.
Qed.

(** The first part of a split at line feeds: a prefix without line feed. *)
Lemma first_line (s : string) :
  HasPrefix s (List.nth 0 (Split s fmt.nl) "") = true /\
  mem_byte "010" (List.nth 0 (Split s fmt.nl) "") = false.
Proof.
  unfold Split, fmt.nl. cbn [Split_fuel].
  destruct (Index_from_byte "010" s 0 ltac:(lia)) as [H1 H2].
  unfold Index.
  destruct (Z.ltb_spec (Index_from 0 s (String "010" "")) 0) as [Hlt|Hge]; cbn [List.nth].
  - split.
    + clear. induction s as [|x s IH]; [reflexivity|].
      cbn [HasPrefix]. rewrite Ascii.eqb_refl. exact IH.
    + apply H1. destruct (Index_from_ge s (String "010" "") 0); lia.
  - split; [apply HasPrefix_take|].
    rewrite Z.sub_0_r in H2. apply H2. lia.
Qed.

(** The documentation line is never empty, has no line feed and at most 100
    bytes, and is the start of the documentation: either a prefix of it, or
    its first 97 bytes followed by three dots. *)
Lemma documentation_line_bounded (docStr doc : string) :
  documentation_line docStr = Some doc ->
  doc <> "" /\
  len doc <= 100 /\
  mem_byte "010" doc = false /\
  (HasPrefix docStr doc = true \/
   exists start, doc = start +:+ "..." /\ len start = 97 /\ HasPrefix docStr start = true).
Proof.
  unfold documentation_line.
  destruct (first_line docStr) as [Hprefix Hline].
  set (first := List.nth 0 (Split docStr fmt.nl) "") in *.
  destruct ((0 <? Z.of_nat (List.length (Split docStr fmt.nl))) &&
            negb (String.eqb first "")) eqn:Hcond; [|discriminate].
  apply andb_true_iff in Hcond as [_ Hne].
  apply negb_true_iff, String.eqb_neq in Hne.
  destruct (Z.ltb_spec 100 (len first)) as [Hlong|Hshort];
    intros Hd; apply (inj Some) in Hd; subst doc.
  - unfold len in *.
    assert (Hlen : String.length (take 97 first) = 97%nat) by (apply length_take; lia).
    split; [|split; [|split]].
    + intros H. apply (f_equal String.length) in H.
      rewrite length_append, Hlen in H. simpl in H. lia.
    + rewrite length_append, Hlen. simpl. lia.
    + rewrite mem_byte_append, (mem_byte_take _ _ _ Hline). reflexivity.
    + right. exists (take 97 first). split; [reflexivity|]. split; [lia|].
      apply HasPrefix_inv in Hprefix as [post Hpost].
      rewrite Hpost.
      replace (take 97 first) with (take 97 (first +:+ post)).
      * apply HasPrefix_take.
      * rewrite <- (take_drop 97 first) at 1. rewrite append_assoc.
        rewrite <- Hlen at 1. 
        generalize (take 97 first) (drop 97 first +:+ post). clear.
        intros a b. induction a as [|x a IH]; [reflexivity|].
        rewrite append_cons. cbn [String.length take]. rewrite IH. reflexivity.
  - auto.
Qed.

(** X13.  The entry of a completion item is written after what was there
    before and consists of the item's number, kind and label, the type line
    when the item has a detail, at most one documentation line, and an empty
    line.  The documentation line shows the start of the item's
    documentation: it is never empty, holds no line feed and at most 100
    bytes, and is either a prefix of the documentation or its first 97 bytes
    followed by three dots. *)
Theorem completion_entry_shape (output : string) (i : Z) (item : CompletionItem) :
  exists doc_part : string,
    completion_entry output i item =
      (((output +:+ fmt.d (int_add i 1) +:+ ". [" +:+
         getCompletionKindString (CompletionItem_Kind item) +:+ "] " +:+
         CompletionItem_Label item) +:+
        (if negb (String.eqb (CompletionItem_Detail item) "")
         then fmt.nl +:+ "   Type: " +:+ CompletionItem_Detail item else "")) +:+
       doc_part) +:+ fmt.nl +:+ fmt.nl /\
    (doc_part = "" \/
     exists doc : string,
       doc_part = fmt.nl +:+ "   Doc: " +:+ doc /\
       doc <> "" /\ len doc <= 100 /\ mem_byte "010" doc = false /\
       let docStr := extractDocumentation (CompletionItem_Documentation item) in
       (HasPrefix docStr doc = true \/
        exists start, doc = start +:+ "..." /\ len start = 97 /\
                      HasPrefix docStr start = true)).
Proof.
  unfold completion_entry.
  set (head := output +:+ fmt.d (int_add i 1) +:+ ". [" +:+
               getCompletionKindString (CompletionItem_Kind item) +:+ "] " +:+
               CompletionItem_Label item).
  assert (Hdetail :
    (if negb (String.eqb (CompletionItem_Detail item) "")
     then head +:+ fmt.nl +:+ "   Type: " +:+ CompletionItem_Detail item else head) =
    head +:+ (if negb (String.eqb (CompletionItem_Detail item) "")
              then fmt.nl +:+ "   Type: " +:+ CompletionItem_Detail item else "")).
  { destruct (negb _); [reflexivity | rewrite append_nil_r; reflexivity]. }
  rewrite Hdetail. clear Hdetail.
  set (typed := head +:+ _).
  destruct (CompletionItem_Documentation item) as [d|] eqn:Hd.
  - destruct (negb (String.eqb (extractDocumentation (Some d)) "")).
    + destruct (documentation_line (extractDocumentation (Some d))) as [doc|] eqn:Hdoc.
      * exists (fmt.nl +:+ "   Doc: " +:+ doc). split; [reflexivity|].
        right. exists doc. split; [reflexivity|].
        apply documentation_line_bounded, Hdoc.
      * exists "". rewrite append_nil_r. auto.
    + exists "". rewrite append_nil_r. auto.
  - exists "". rewrite append_nil_r. auto.
Qed.

(** X17.  [getCompletionKindString] names the eighteen completion kinds 1 to
    18 with eighteen different names, none of them "Unknown", and names every
    other number "Unknown". *)
Theorem getCompletionKindString_names (kind kind' : CompletionItemKind) :
  (kind < 1 \/ 18 < kind -> getCompletionKindString kind = "Unknown") /\
  (1 <= kind <= 18 -> getCompletionKindString kind <> "Unknown") /\
  (1 <= kind <= 18 -> 1 <= kind' <= 18 ->
   getCompletionKindString kind = getCompletionKindString kind' -> kind = kind').
Proof.
  assert (Hcases : forall k, 1 <= k <= 18 ->
            In k [1; 2; 3; 4; 5; 6; 7; 8; 9; 10; 11; 12; 13; 14; 15; 16; 17; 18]).
  { intros k Hk. simpl.
    assert (k = 1 \/ k = 2 \/ k = 3 \/ k = 4 \/ k = 5 \/ k = 6 \/ k = 7 \/ k = 8 \/
            k = 9 \/ k = 10 \/ k = 11 \/ k = 12 \/ k = 13 \/ k = 14 \/ k = 15 \/
            k = 16 \/ k = 17 \/ k = 18) by lia.
    intuition auto. }
  split; [|split].
  - intros Hk. unfold getCompletionKindString.
    repeat match goal with
           | |- context [?a =? ?b] =>
               destruct (Z.eqb_spec a b) as [E|_];
               [unfold TextCompletion, MethodCompletion, FunctionCompletion,
                  ConstructorCompletion, FieldCompletion, VariableCompletion,
                  ClassCompletion, InterfaceCompletion, ModuleCompletion,
                  PropertyCompletion, UnitCompletion, ValueCompletion, EnumCompletion,
                  KeywordCompletion, SnippetCompletion, ColorCompletion, FileCompletion,
                  ReferenceCompletion in E; lia|]
           end.
    reflexivity.
  - intros Hk. apply Hcases in Hk. simpl in Hk.
    repeat (destruct Hk as [<-|Hk]; [discriminate|]). contradiction.
  - intros Hk Hk' H. apply Hcases in Hk. apply Hcases in Hk'. simpl in Hk, Hk'.
    repeat (destruct Hk as [<-|Hk];
            [repeat (destruct Hk' as [<-|Hk']; [first [reflexivity | discriminate H]|]);
             contradiction|]).
    contradiction.
Qed.

End CompletionExtras.

(** ** Arguments outside the 1-indexed range *)

Section WrapExtras.

Import tools.

Lemma uint32_int (z : Z) : uint32 (int z) = z mod 2 ^ 32.
Proof.
  unfold uint32, int.
  rewrite (Z.mod_eq (z + 2 ^ 63) (2 ^ 64)) by lia.
  replace (z + 2 ^ 63 - 2 ^ 64 * ((z + 2 ^ 63) / 2 ^ 64) - 2 ^ 63)
    with (z + (- ((z + 2 ^ 63) / 2 ^ 64) * 2 ^ 32) * 2 ^ 32) by lia.
  apply Z_mod_plus_full.
Qed.

(** X14.  The request builders accept every [int]: the position they send
    is the argument minus one, reduced modulo 2^32.  So no line or column is
    rejected, an argument of 0 is sent as 4294967295, and a non-positive
    argument above -2^32 is sent as that argument plus 2^32 - 1. *)
Theorem positions_wrap (filePath : string) (line column : Z) :
  let sent := {| Line := (line - 1) mod 2 ^ 32; Character := (column - 1) mod 2 ^ 32 |} in
  Position_ (CallHierarchyPrepareParams_TextDocumentPositionParams
               (GetCallHierarchy_params filePath line column)) = sent /\
  SignatureHelpParams_Position (GetSignatureHelp_params filePath line column) = sent /\
  CompletionParams_Position (GetCompletions_params filePath line column) = sent /\
  GetCodeActions_actionRange line column line column = {| Start := sent; End_ := sent |} /\
  (line = 0 -> Line sent = 4294967295) /\
  (- 2 ^ 32 < line <= 0 -> Line sent = line + (2 ^ 32 - 1)).
Proof.
  intros sent. unfold sent, GetCodeActions_actionRange. cbn.
  unfold int_sub. rewrite !uint32_int.
  repeat split.
  - intros ->. reflexivity.
  - intros H. replace (line - 1) with (line + (2 ^ 32 - 1) + (-1) * 2 ^ 32) by lia.
    rewrite Z_mod_plus_full. apply Z.mod_small. lia.
Qed.

End WrapExtras.

(** ** Rejected candidates cost no request *)

Section RejectedExtras.

Import tools.

Context {St : Type}.
Variable env : Env St.
Variable client : lsp.Client St.

(** X15.  When the symbol search answers and the filter rejects every
    candidate, [ReadDefinition] makes no further call: the client is left in
    the state the search left it in. *)
Theorem ReadDefinition_rejected_no_calls symbolName st symbolResult st1 results :
  lsp.Symbol client {| Query := symbolName |} st = (Ok symbolResult, st1) ->
  Results symbolResult = Ok results ->
  (forall symbol, symbol ∈ results -> snd (symbol_switch env symbolName symbol) = false) ->
  ReadDefinition env client symbolName st = ((symbolName +:+ " not found", None), st1).
Proof.
  intros Hs Hr Hrej. unfold ReadDefinition. rewrite Hs, Hr.
  rewrite ReadDefinition_loop_rejected by exact Hrej. reflexivity.
Qed.

End RejectedExtras.

(** ** The order of the entries of [ReadDefinition] *)

Section FirstOccurrences.

Context {K : Type} `{EqDecision K}.



End FirstOccurrences.

Section EntryOrder.

Import tools.

Context {St : Type}.
Variable env : Env St.
Variable client : lsp.Client St.

Hypothesis OpenFile_ok : forall path st, fst (lsp.OpenFile client path st) = None.
Hypothesis GetFullDefinition_ok :
  forall loc st, snd (fst (GetFullDefinition env client loc st)) = None.




End EntryOrder.

(** ** The further properties on the concrete server *)

Section MoreInstances.

Import tools lsp Scenario.

Lemma symbolMatches_rules_witness :
  symbolMatches (fun _ _ => false) "method" "TestClass::method" Method "TestClass" =
  symbolMatches (fun _ _ => false) "method" "TestClass::method" Variable_ "".
Proof.
  destruct (symbolMatches_rules (fun _ _ => false) "method" "TestClass::method"
              Variable_ "") as (_ & Hcontainer & Hkind).
  rewrite <- (Hkind Method); [|reflexivity|reflexivity].
  destruct (symbolMatches_rules (fun _ _ => false) "method" "TestClass::method"
              Method "") as (_ & Hcontainer' & _).
  apply Hcontainer'.
Defined.

Lemma symbolMatches_sound_witness :
  Contains "std::vector<int>" "vector" = true \/
  EqualFold (fun _ _ => false) "std::vector<int>" "vector" = true.
Proof.
  apply (symbolMatches_sound (fun _ _ => false) "vector" "std::vector<int>" Class "").
  reflexivity.
Defined.

Lemma formatCodeActionKind_classes_witness :
  In (formatCodeActionKind "refactor.extract.function")
     ["Refactor.Extract"; "Refactor.Inline"; "Refactor.Rewrite"; "Refactor"] /\
  formatCodeActionKind "custom.kind" = "custom.kind".
Proof.
  split.
  - apply (formatCodeActionKind_classes "refactor.extract.function"); reflexivity.
  - apply (formatCodeActionKind_classes "custom.kind"); reflexivity.
Defined.

(** Two actions without a value: the header announces them and nothing
    follows. *)
Lemma GetCodeActions_answer_witness :
  fst (fst (GetCodeActions
              (client_with_actions [ {| codeAction_Value := None |};
                                     {| codeAction_Value := None |} ])
              "/src/main.cpp" 5 3 5 9 0%nat))
  = "Code Actions (2 available):" +:+ fmt.nl +:+ fmt.nl.
Proof.
  destruct (GetCodeActions_answer
              (client_with_actions [ {| codeAction_Value := None |};
                                     {| codeAction_Value := None |} ])
              "/src/main.cpp" 5 3 5 9 0%nat 1%nat 1%nat 2%nat []
              [ {| codeAction_Value := None |}; {| codeAction_Value := None |} ]
              eq_refl eq_refl eq_refl) as (_ & _ & _ & _ & H).
  apply H.
  - discriminate.
  - repeat constructor.
Defined.

Lemma ReadDefinition_opens_before_definition_witness :
  Recording.definitions_after_open (Path recording_env)
    (snd (ReadDefinition recording_env (Recording.client server) "method" [])).
Proof.
  apply ReadDefinition_opens_before_definition.
  - intros c loc log. exists []. split; [symmetry; apply app_nil_r | constructor].
  - intros i params H. destruct i; discriminate H.
Defined.

Lemma GetDocumentSymbols_answer_witness :
  snd (fst (GetDocumentSymbols client client_DocumentSymbol (TableKindMap env)
              "/src/test_class.cpp" 0%nat)) = None.
Proof.
  rewrite (GetDocumentSymbols_answer client client_DocumentSymbol (TableKindMap env)
             "/src/test_class.cpp" 0%nat 1%nat 2%nat
             {| documentSymbol_Results := Ok the_symbols |} the_symbols
             eq_refl eq_refl eq_refl).
  reflexivity.
Defined.

Lemma getCompletionKindString_names_witness :
  getCompletionKindString MethodCompletion <> "Unknown" /\
  getCompletionKindString 0 = "Unknown".
Proof.
  destruct (getCompletionKindString_names MethodCompletion 0) as (_ & Hknown & _).
  destruct (getCompletionKindString_names 0 0) as (Hunknown & _).
  split.
  - apply Hknown. unfold MethodCompletion. lia.
  - apply Hunknown. left. lia.
Defined.

(** With the second parameter's offsets out of order the tool panics; with
    them in order it returns. *)
Lemma GetSignatureHelp_panics_witness :
  GetSignatureHelp client (client_SignatureHelp true) ExtractTextFromLocation
    "/src/main.cpp" 5 3 0%nat = None /\
  GetSignatureHelp client (client_SignatureHelp false) ExtractTextFromLocation
    "/src/main.cpp" 5 3 0%nat <> None.
Proof.
  split.
  - apply GetSignatureHelp_panics.
    exists 1%nat, 2%nat, (the_signatures true), 1%nat.
    eexists. repeat split.
    apply Exists_cons_tl, Exists_cons_hd.
    exists 19, 14. repeat split; vm_compute; congruence.
  - intros H. apply GetSignatureHelp_panics in H
      as (s1 & s2 & help & k & sig & _ & [= <- _] & Hk & Hidx & Hrev).
    destruct k as [|[|k]]; try discriminate.
    injection Hk as <-.
    apply Exists_cons in Hrev as [Hrev|Hrev];
      [|apply Exists_cons in Hrev as [Hrev|Hrev]; [|inversion Hrev]];
      destruct Hrev as (s & e & [= <- <-] & _ & _ & Hlt); lia.
Defined.

Lemma positions_wrap_witness :
  Line (Position_ (CallHierarchyPrepareParams_TextDocumentPositionParams
                     (GetCallHierarchy_params "/src/main.cpp" 0 1))) = 4294967295.
Proof.
  destruct (positions_wrap "/src/main.cpp" 0 1) as (H & _ & _ & _ & Hzero & _).
  rewrite H. apply Hzero. reflexivity.
Defined.

Lemma ReadDefinition_rejected_no_calls_witness :
  ReadDefinition env client "nothing" 0%nat = (("nothing not found", None), 1%nat).
Proof.
  apply (ReadDefinition_rejected_no_calls env client "nothing" 0%nat
           {| Results := Ok results |} 1%nat results eq_refl eq_refl).
  intros symbol Hsymbol.
  repeat (apply elem_of_cons in Hsymbol as [->|Hsymbol]; [reflexivity|]).
  apply elem_of_nil in Hsymbol. contradiction.
Defined.


End MoreInstances.
